(** * RMD_Analyzer: the pixel classification engine

    A shallow embedding of the engine, [rgbToHsv] and
    [analyzeImagePixelData] (the module that [App.tsx] imports as
    [utils/colorUtils]), together with the result types of [types.ts], the
    helper [hexToRgb] of the same module and the chart rows of
    [AnalysisCharts.tsx].

    Modelling choices.
    - A JavaScript number that holds a pixel count or a dimension is an
      integer [Z]; a number produced by [/] is an IEEE 754 binary64 value,
      Rocq's primitive [float], whose operations round exactly as the
      JavaScript ones do.  The integers are the code's numbers as long as
      they stay within 2^53 in absolute value, where binary64 is exact: a
      product [width * height] beyond that is rounded by the code, and
      statements about [totalPixels] on arbitrary dimensions say so.
    - [ImageData.data] is a [Uint8ClampedArray]: a [list Z] of bytes.  Reading
      it past its end yields [undefined], here [None].
    - The seven local counters of the loop are a record that the loop body
      threads through the iterations.
    - Where the caller's objects matter, the engine runs against a store of
      objects reached by reference ([Store]): the [ImageData] object and its
      buffer are two cells of it, and a returned value shows the references
      it holds.
    - A string is a [string] of 8-bit characters; [hexToRgb] accepts ASCII
      characters only, so nothing it accepts is left out. *)

From Stdlib Require Import String Ascii ZArith List Lia Bool Permutation.
From Stdlib Require Import Floats.
Import ListNotations.

Set Warnings "-inexact-float".
Local Open Scope Z_scope.

(** * Part I: the program *)

(** ** Numbers *)

Module Js.

(** The binary64 value nearest to an integer (exact below 2^53). *)
Definition ofZ (z : Z) : float :=
  SF2Prim (binary_normalize prec emax z 0 false).

(** [ToNumber] of an element read from a typed array: [undefined] is NaN. *)
Definition toNumber (x : option Z) : float :=
  match x with
  | Some z => ofZ z
  | None => nan
  end.

Definition isNaN (x : float) : bool := negb (x =? x)%float.

(** [x < k], [x > k] and [x === k] for an array element [x] and an integer
    literal [k]; every comparison with [undefined] is false. *)
Definition lt (x : option Z) (k : Z) : bool :=
  match x with Some z => z <? k | None => false end.

Definition gt (x : option Z) (k : Z) : bool :=
  match x with Some z => z >? k | None => false end.

Definition strictEq (x : option Z) (k : Z) : bool :=
  match x with Some z => z =? k | None => false end.

(** [Math.max] and [Math.min] on two arguments: NaN is contagious and
    [+0] is larger than [-0]. *)
Definition max2 (x y : float) : float :=
  if isNaN x || isNaN y then nan
  else if (x <? y)%float then y
  else if (y <? x)%float then x
  else if get_sign x then y else x.

Definition min2 (x y : float) : float :=
  if isNaN x || isNaN y then nan
  else if (x <? y)%float then x
  else if (y <? x)%float then y
  else if get_sign x then x else y.

Definition Math_max (x y z : float) : float := max2 (max2 x y) z.
Definition Math_min (x y z : float) : float := min2 (min2 x y) z.

(** How a call completes: with a value, or with a thrown error.  The one
    error is the one the specification names; no statement of the source
    throws it, or anything else. *)
Inductive error : Set :=
| MalformedInputError.

Inductive completion (A : Type) : Type :=
| Normal (v : A)
| Throw (e : error).

Arguments Normal {A} v.
Arguments Throw {A} e.

End Js.

(** ** Data model ([types.ts]) *)

Module ColorCategory.
Record t : Set := mk {
  name : string;
  id : string;
  color : string;
  count : Z;
  percentage : float
}.
End ColorCategory.

Module AnalysisResult.
Record t : Set := mk {
  totalPixels : Z;
  processedPixels : Z;
  excludedPixels : Z;
  categories : list ColorCategory.t;
  width : Z;
  height : Z
}.
End AnalysisResult.

(** The DOM's [ImageData], as far as the engine reads it. *)
Module ImageData.
Record t : Set := mk {
  width : Z;
  height : Z;
  data : list Z
}.

(** [data[i]] *)
Definition get (img : t) (i : nat) : option Z := nth_error (data img) i.

(** The shape the browser guarantees: four bytes for each declared pixel. *)
Definition wellFormed (img : t) : Prop :=
  Z.of_nat (length (data img)) = width img * height img * 4.
End ImageData.

(** ** RGB to HSV *)

Module Hsv.
Record t : Set := mk { h : float; s : float; v : float }.
End Hsv.

Definition rgbToHsv (r g b : float) : Hsv.t :=
  let r := (r / 255)%float in
  let g := (g / 255)%float in
  let b := (b / 255)%float in
  let max := Js.Math_max r g b in
  let min := Js.Math_min r g b in
  let v := max in
  let d := (max - min)%float in
  let s := if (max =? 0)%float then 0%float else (d / max)%float in
  let h :=
    if negb (max =? min)%float then
      let h :=
        if (max =? r)%float then
          ((g - b) / d + (if (g <? b)%float then 6 else 0))%float
        else if (max =? g)%float then ((b - r) / d + 2)%float
        else if (max =? b)%float then ((r - g) / d + 4)%float
        else 0%float in
      (h / 6)%float
    else 0%float in
  Hsv.mk (h * 360)%float s v.

(** ** The loop's counters *)

Module Counters.
Record t : Set := mk {
  excludedPixels : Z;
  countWarm : Z;
  countDarkGreen : Z;
  countBlue : Z;
  countNeonGreen : Z;
  countGrey : Z;
  countOther : Z
}.

Definition zero : t := mk 0 0 0 0 0 0 0.

(** The names of the seven counters. *)
Inductive var : Set :=
| ExcludedPixels
| CountWarm
| CountDarkGreen
| CountBlue
| CountNeonGreen
| CountGrey
| CountOther.

Definition read (x : var) (c : t) : Z :=
  match x with
  | ExcludedPixels => excludedPixels c
  | CountWarm => countWarm c
  | CountDarkGreen => countDarkGreen c
  | CountBlue => countBlue c
  | CountNeonGreen => countNeonGreen c
  | CountGrey => countGrey c
  | CountOther => countOther c
  end.

(** [x++] *)
Definition incr (x : var) (c : t) : t :=
  match x with
  | ExcludedPixels =>
      mk (excludedPixels c + 1) (countWarm c) (countDarkGreen c) (countBlue c)
         (countNeonGreen c) (countGrey c) (countOther c)
  | CountWarm =>
      mk (excludedPixels c) (countWarm c + 1) (countDarkGreen c) (countBlue c)
         (countNeonGreen c) (countGrey c) (countOther c)
  | CountDarkGreen =>
      mk (excludedPixels c) (countWarm c) (countDarkGreen c + 1) (countBlue c)
         (countNeonGreen c) (countGrey c) (countOther c)
  | CountBlue =>
      mk (excludedPixels c) (countWarm c) (countDarkGreen c) (countBlue c + 1)
         (countNeonGreen c) (countGrey c) (countOther c)
  | CountNeonGreen =>
      mk (excludedPixels c) (countWarm c) (countDarkGreen c) (countBlue c)
         (countNeonGreen c + 1) (countGrey c) (countOther c)
  | CountGrey =>
      mk (excludedPixels c) (countWarm c) (countDarkGreen c) (countBlue c)
         (countNeonGreen c) (countGrey c + 1) (countOther c)
  | CountOther =>
      mk (excludedPixels c) (countWarm c) (countDarkGreen c) (countBlue c)
         (countNeonGreen c) (countGrey c) (countOther c + 1)
  end.

(** The pixels counted under one of the six categories. *)
Definition categorised (c : t) : Z :=
  countWarm c + countDarkGreen c + countBlue c + countNeonGreen c
  + countGrey c + countOther c.

(** Every pixel the loop has visited. *)
Definition visited (c : t) : Z := excludedPixels c + categorised c.
End Counters.

(** ** The engine *)

(** The test of the Warm band on a converted pixel. *)
Definition isWarm (x : Hsv.t) : bool :=
  (0 <=? Hsv.h x)%float && (Hsv.h x <=? 75)%float
  && (0.55 <=? Hsv.s x)%float && (0.35 <=? Hsv.v x)%float.

(** [r === R && g === G && b === B], the shape of the magenta test and of the
    four strict colour tests. *)
Definition isRgb (r g b : option Z) (R G B : Z) : bool :=
  Js.strictEq r R && Js.strictEq g G && Js.strictEq b B.

Definition isMagenta (r g b : option Z) : bool := isRgb r g b 255 0 255.

Definition isBorder (r g b : option Z) : bool :=
  Js.gt r 150 && Js.gt b 150 && Js.lt g 60.

(** One iteration of the loop on the four elements [data[i]] .. [data[i+3]]. *)
Definition pixelStep (r g b a : option Z) (c : Counters.t) : Counters.t :=
  if Js.lt a 255 then Counters.incr Counters.ExcludedPixels c
  else if isMagenta r g b || isBorder r g b then
    Counters.incr Counters.ExcludedPixels c
  else if isRgb r g b 0 146 69 then Counters.incr Counters.CountDarkGreen c
  else if isRgb r g b 0 0 255 then Counters.incr Counters.CountBlue c
  else if isRgb r g b 0 255 0 then Counters.incr Counters.CountNeonGreen c
  else if isRgb r g b 77 77 77 then Counters.incr Counters.CountGrey c
  else if isWarm (rgbToHsv (Js.toNumber r) (Js.toNumber g) (Js.toNumber b)) then
    Counters.incr Counters.CountWarm c
  else Counters.incr Counters.CountOther c.

(** [for (let i = ...; i < data.length; i += 4) { ... }], started at [i] with
    counters [c].  [fuel] bounds the number of iterations; [data.length]
    iterations always suffice ([loop_fuel]). *)
Fixpoint loop (fuel : nat) (img : ImageData.t) (i : nat) (c : Counters.t)
  : Counters.t :=
  match fuel with
  | O => c
  | S fuel' =>
      if (i <? length (ImageData.data img))%nat then
        loop fuel' img (i + 4)
          (pixelStep (ImageData.get img i) (ImageData.get img (i + 1))
                     (ImageData.get img (i + 2)) (ImageData.get img (i + 3)) c)
      else c
  end.

(** [(count / safeTotal) * 100] *)
Definition percentageOf (count safeTotal : Z) : float :=
  (Js.ofZ count / Js.ofZ safeTotal * 100)%float.

(** Everything after the loop: the result built from the counters. *)
Definition assemble (width height : Z) (c : Counters.t) : AnalysisResult.t :=
  let totalPixels := width * height in
  let excludedPixels := Counters.excludedPixels c in
  let processedPixels := totalPixels - excludedPixels in
  let safeTotal := if processedPixels =? 0 then 1 else processedPixels in
  let categories :=
    [ ColorCategory.mk "Warm (Red/Orange/Yellow)" "warm" "#ed1c24"
        (Counters.countWarm c) (percentageOf (Counters.countWarm c) safeTotal);
      ColorCategory.mk "Dark Green (#009245)" "dark_green" "#009245"
        (Counters.countDarkGreen c)
        (percentageOf (Counters.countDarkGreen c) safeTotal);
      ColorCategory.mk "Blue (#0000ff)" "blue" "#0000ff"
        (Counters.countBlue c) (percentageOf (Counters.countBlue c) safeTotal);
      ColorCategory.mk "Neon Green (#00ff00)" "neon_green" "#00ff00"
        (Counters.countNeonGreen c)
        (percentageOf (Counters.countNeonGreen c) safeTotal);
      ColorCategory.mk "Grey (#4d4d4d)" "grey" "#4d4d4d"
        (Counters.countGrey c) (percentageOf (Counters.countGrey c) safeTotal);
      ColorCategory.mk "Other / Unclassified" "other" "#9CA3AF"
        (Counters.countOther c) (percentageOf (Counters.countOther c) safeTotal)
    ] in
  AnalysisResult.mk totalPixels processedPixels excludedPixels categories
    width height.

Definition analyzeImagePixelData (imageData : ImageData.t) : AnalysisResult.t :=
  let width := ImageData.width imageData in
  let height := ImageData.height imageData in
  assemble width height
    (loop (length (ImageData.data imageData)) imageData 0 Counters.zero).

(** The function has no [throw] and calls nothing that throws on an
    [ImageData]: every call completes normally. *)
Definition call_analyzeImagePixelData (imageData : ImageData.t)
  : Js.completion AnalysisResult.t :=
  Js.Normal (analyzeImagePixelData imageData).

(** ** The engine and the caller's bitmap *)

(** The engine once more, now as a program that runs against the store in
    which the caller's objects live.  An [ImageData] is an object of the
    store whose [data] field is a reference to a buffer of the store; the
    program reaches both through the operations below only, the store comes
    back with the result, and the result is a value in which a reference
    would show. *)
Module Store.

Definition loc : Set := nat.

Inductive cell : Set :=
| Bytes (data : list Z)
| Image (width height : Z) (data : loc).

Definition heap : Set := list cell.

(** What a program can return: numbers, strings, references into the store,
    arrays and object literals. *)
#[warnings="-register-all"]
Inductive value : Set :=
| Num (z : Z)
| Double (x : float)
| Str (s : string)
| Ref (l : loc)
| Arr (items : list value)
| Obj (fields : list (string * value)).

(** The references a value holds, at any depth. *)
Fixpoint refs (v : value) : list loc :=
  match v with
  | Ref l => [l]
  | Arr items => flat_map refs items
  | Obj fields => flat_map (fun f => refs (snd f)) fields
  | Num _ | Double _ | Str _ => []
  end.

Definition M (A : Type) : Type := heap -> A * heap.

Definition ret {A} (x : A) : M A := fun s => (x, s).

Definition bind {A B} (m : M A) (k : A -> M B) : M B :=
  fun s => let (x, s') := m s in k x s'.

Notation "x <- m ;; k" := (bind m (fun x => k))
  (at level 61, m at next level, right associativity).

(** The bytes of the buffer at [d]. *)
Definition bytesAt (s : heap) (d : loc) : list Z :=
  match nth_error s d with
  | Some (Bytes l) => l
  | _ => []
  end.

(** [imageData.width], [imageData.height], [imageData.data], [data.length],
    [data[i]].  On a location that holds no object of the right kind, which
    the types of the source rule out, they read 0, the location itself and
    the empty buffer. *)
Definition fieldWidth (p : loc) : M Z :=
  fun s => (match nth_error s p with Some (Image w _ _) => w | _ => 0 end, s).

Definition fieldHeight (p : loc) : M Z :=
  fun s => (match nth_error s p with Some (Image _ h _) => h | _ => 0 end, s).

Definition fieldData (p : loc) : M loc :=
  fun s => (match nth_error s p with Some (Image _ _ d) => d | _ => p end, s).

Definition dataLength (d : loc) : M nat := fun s => (length (bytesAt s d), s).

Definition dataGet (d : loc) (i : nat) : M (option Z) :=
  fun s => (nth_error (bytesAt s d) i, s).

(** [data[i] = v] on a [Uint8ClampedArray]: the value is clamped to a byte
    and a store past the end is dropped.  The engine never uses it. *)
Fixpoint update {A} (l : list A) (i : nat) (v : A) : list A :=
  match l, i with
  | [], _ => []
  | _ :: l', O => v :: l'
  | x :: l', S i' => x :: update l' i' v
  end.

Definition clamp (v : Z) : Z := Z.max 0 (Z.min 255 v).

Definition dataSet (d : loc) (i : nat) (v : Z) : M unit :=
  fun s =>
    (tt, match nth_error s d with
         | Some (Bytes l) => update s d (Bytes (update l i (clamp v)))
         | _ => s
         end).

(** The object literals of the result, field by field as the source writes
    them. *)
Definition categoryValue (c : ColorCategory.t) : value :=
  Obj [ ("id", Str (ColorCategory.id c)); ("name", Str (ColorCategory.name c));
        ("color", Str (ColorCategory.color c));
        ("count", Num (ColorCategory.count c));
        ("percentage", Double (ColorCategory.percentage c)) ]%string.

Definition resultValue (r : AnalysisResult.t) : value :=
  Obj [ ("totalPixels", Num (AnalysisResult.totalPixels r));
        ("processedPixels", Num (AnalysisResult.processedPixels r));
        ("excludedPixels", Num (AnalysisResult.excludedPixels r));
        ("categories", Arr (map categoryValue (AnalysisResult.categories r)));
        ("width", Num (AnalysisResult.width r));
        ("height", Num (AnalysisResult.height r)) ]%string.

Fixpoint loopM (data : loc) (fuel i : nat) (c : Counters.t) : M Counters.t :=
  match fuel with
  | O => ret c
  | S fuel' =>
      len <- dataLength data ;;
      if (i <? len)%nat then
        r <- dataGet data i ;;
        g <- dataGet data (i + 1) ;;
        b <- dataGet data (i + 2) ;;
        a <- dataGet data (i + 3) ;;
        loopM data fuel' (i + 4) (pixelStep r g b a c)
      else ret c
  end.

Definition analyzeImagePixelData (imageData : loc) : M value :=
  width <- fieldWidth imageData ;;
  height <- fieldHeight imageData ;;
  data <- fieldData imageData ;;
  len <- dataLength data ;;
  c <- loopM data len 0 Counters.zero ;;
  ret (resultValue (assemble width height c)).

End Store.

(** ** [hexToRgb] *)

Module Rgb.
Record t : Set := mk { r : Z; g : Z; b : Z }.
End Rgb.

(** A character of the class [[a-f\d]] under the flag [i], with the value
    [parseInt(_, 16)] gives it.  A string is a list of 8-bit characters here;
    no character above 127 is in the class. *)
Definition hexDigit (c : ascii) : option Z :=
  let n := Z.of_N (N_of_ascii c) in
  if (48 <=? n) && (n <=? 57) then Some (n - 48)
  else if (97 <=? n) && (n <=? 102) then Some (n - 87)
  else if (65 <=? n) && (n <=? 70) then Some (n - 55)
  else None.

(** [parseInt(_, 16)] of a capture group [([a-f\d]{2})]. *)
Definition parseHexPair (c1 c2 : ascii) : option Z :=
  match hexDigit c1, hexDigit c2 with
  | Some d1, Some d2 => Some (16 * d1 + d2)
  | _, _ => None
  end.

(** [^#?]: one leading [#] is skipped when there is one. *)
Definition stripHash (hex : string) : string :=
  match hex with
  | String c rest => if Ascii.eqb c "#" then rest else hex
  | EmptyString => hex
  end.

(** The pattern [/^#?([a-f\d]{2})([a-f\d]{2})([a-f\d]{2})$/i]: after the
    optional [#], exactly six characters of the class; [None] is [null]. *)
Definition hexToRgb (hex : string) : option Rgb.t :=
  match stripHash hex with
  | String c1 (String c2 (String c3 (String c4 (String c5
      (String c6 EmptyString))))) =>
      match parseHexPair c1 c2, parseHexPair c3 c4, parseHexPair c5 c6 with
      | Some r, Some g, Some b => Some (Rgb.mk r g b)
      | _, _, _ => None
      end
  | _ => None
  end.

(** ** The chart rows ([AnalysisCharts.tsx]) *)

Module ChartDatum.
Record t : Set := mk {
  name : string;
  value : float;
  pixelCount : Z;
  color : string
}.
End ChartDatum.

Definition chartData (data : AnalysisResult.t) : list ChartDatum.t :=
  map (fun cat =>
         ChartDatum.mk (ColorCategory.name cat) (ColorCategory.percentage cat)
           (ColorCategory.count cat) (ColorCategory.color cat))
      (AnalysisResult.categories data).

(** * Part II: the vocabulary of the statements *)

Definition image (w h : Z) (bytes : list Z) : ImageData.t :=
  ImageData.mk w h bytes.

Definition counts (r : AnalysisResult.t) : list Z :=
  map ColorCategory.count (AnalysisResult.categories r).

Definition percentages (r : AnalysisResult.t) : list float :=
  map ColorCategory.percentage (AnalysisResult.categories r).

(** Equality of counter names. *)
Definition var_eqb (x y : Counters.var) : bool :=
  match x, y with
  | Counters.ExcludedPixels, Counters.ExcludedPixels
  | Counters.CountWarm, Counters.CountWarm
  | Counters.CountDarkGreen, Counters.CountDarkGreen
  | Counters.CountBlue, Counters.CountBlue
  | Counters.CountNeonGreen, Counters.CountNeonGreen
  | Counters.CountGrey, Counters.CountGrey
  | Counters.CountOther, Counters.CountOther => true
  | _, _ => false
  end.

(** The iterations the loop runs from index [i] on a buffer of [len] bytes:
    one for each of [i], [i+4], [i+8], ... below [len]. *)
Definition iterations (len i : nat) : Z := (Z.of_nat (len - i) + 3) / 4.

(** The sum of [count] over the categories of a result. *)
Definition sumCounts (r : AnalysisResult.t) : Z := fold_right Z.add 0 (counts r).

(** The counters the loop hands over to the assembly of the result. *)
Definition finalCounters (img : ImageData.t) : Counters.t :=
  loop (length (ImageData.data img)) img 0 Counters.zero.

(** The pixels a result accounts for: the excluded ones and those of the six
    categories. *)
Definition accounted (r : AnalysisResult.t) : Z :=
  AnalysisResult.excludedPixels r + sumCounts r.

(** No counter ever goes below zero. *)
Definition nonneg (c : Counters.t) : Prop :=
  forall x, 0 <= Counters.read x c.

(** The 256 values a colour channel can take, as numbers. *)
Definition channels : list float :=
  map (fun k => Js.ofZ (Z.of_nat k)) (seq 0 256).

(** A test run on all 256^3 colours. *)
Definition onEveryColour (test : float -> float -> float -> bool) : bool :=
  let cs := channels in
  forallb (fun r => forallb (fun g => forallb (fun b => test r g b) cs) cs) cs.

(** H in [0,360), S in [0,1] and V in [0,1], and none of them NaN. *)
Definition inRange (x : Hsv.t) : bool :=
  let (h, s, v) := x in
  ((0 <=? h)%float && (h <? 360)%float)
  && ((0 <=? s)%float && (s <=? 1)%float)
  && ((0 <=? v)%float && (v <=? 1)%float)
  && (negb (Js.isNaN h) && negb (Js.isNaN s) && negb (Js.isNaN v)).

(** A property of every channel value, unfolded to a conjunction. *)
Fixpoint onAll (P : float -> Prop) (l : list float) : Prop :=
  match l with
  | [] => True
  | x :: l' => P x /\ onAll P l'
  end.

(** The divisor of the percentages, [safeTotal] in the source. *)
Definition safeTotalOf (r : AnalysisResult.t) : Z :=
  if AnalysisResult.processedPixels r =? 0 then 1
  else AnalysisResult.processedPixels r.

(** The percentage in the words of the specification:
    100 x count / max(processedPixels, 1), the product first. *)
Definition percentageLaw (count processedPixels : Z) : float :=
  (100 * Js.ofZ count / Js.ofZ (Z.max processedPixels 1))%float.

(** One blue and two grey pixels, and a 1 x 1 image that comes with three
    pixels, two of them transparent. *)
Definition oneInThree : ImageData.t :=
  image 3 1 [0;0;255;255; 77;77;77;255; 77;77;77;255].

Definition overfull : ImageData.t :=
  image 1 1 [0;0;0;0; 0;0;0;0; 0;0;255;255].

(** A 2 x 1 image that comes with one pixel only, and a 1 x 1 image with a
    fifth byte. *)
Definition halfEmpty : ImageData.t := image 2 1 [0;0;255;255].

Definition fiveBytes : ImageData.t := image 1 1 [0;0;0;0;0].

(** ceil(n / 4) *)
Definition ceilQuarter (n : Z) : Z := (n + 3) / 4.

(** ** Vocabulary of the further properties *)

(** The groups of four elements the loop reads, in order; the last one is
    filled up with [undefined] when the length is no multiple of four. *)
Fixpoint groups (l : list Z) : list (option Z * option Z * option Z * option Z) :=
  match l with
  | [] => []
  | [r] => [(Some r, None, None, None)]
  | [r; g] => [(Some r, Some g, None, None)]
  | [r; g; b] => [(Some r, Some g, Some b, None)]
  | r :: g :: b :: a :: rest => (Some r, Some g, Some b, Some a) :: groups rest
  end.

(** The loop body on one group. *)
Definition stepGroup (c : Counters.t)
  (p : option Z * option Z * option Z * option Z) : Counters.t :=
  let '(r, g, b, a) := p in pixelStep r g b a c.

(** A whole pixel, and the buffer of a list of whole pixels. *)
Module Pixel.
Record t : Set := mk { r : Z; g : Z; b : Z; a : Z }.
End Pixel.

Definition bytesOf (ps : list Pixel.t) : list Z :=
  flat_map (fun p => [Pixel.r p; Pixel.g p; Pixel.b p; Pixel.a p]) ps.

Definition groupOf (p : Pixel.t) : option Z * option Z * option Z * option Z :=
  (Some (Pixel.r p), Some (Pixel.g p), Some (Pixel.b p), Some (Pixel.a p)).

(** Counters added one by one. *)
Definition addCounters (c d : Counters.t) : Counters.t :=
  Counters.mk (Counters.excludedPixels c + Counters.excludedPixels d)
    (Counters.countWarm c + Counters.countWarm d)
    (Counters.countDarkGreen c + Counters.countDarkGreen d)
    (Counters.countBlue c + Counters.countBlue d)
    (Counters.countNeonGreen c + Counters.countNeonGreen d)
    (Counters.countGrey c + Counters.countGrey d)
    (Counters.countOther c + Counters.countOther d).

(** Classes of pixels told by their four bytes, and how many pixels of a list
    are in a class. *)
Definition excludedPixel (p : Pixel.t) : bool :=
  (Pixel.a p <? 255)
  || ((150 <? Pixel.r p) && (150 <? Pixel.b p) && (Pixel.g p <? 60)).

Definition opaqueRgb (R G B : Z) (p : Pixel.t) : bool :=
  (255 <=? Pixel.a p) && (Pixel.r p =? R) && (Pixel.g p =? G) && (Pixel.b p =? B).

Definition countOf (q : Pixel.t -> bool) (ps : list Pixel.t) : Z :=
  Z.of_nat (length (filter q ps)).

(** The six tests of the loop body on a pixel with bytes [r], [g], [b]. *)
Definition ruleTests (r g b : Z) : list bool :=
  [ isMagenta (Some r) (Some g) (Some b) || isBorder (Some r) (Some g) (Some b);
    isRgb (Some r) (Some g) (Some b) 0 146 69;
    isRgb (Some r) (Some g) (Some b) 0 0 255;
    isRgb (Some r) (Some g) (Some b) 0 255 0;
    isRgb (Some r) (Some g) (Some b) 77 77 77;
    isWarm (rgbToHsv (Js.ofZ r) (Js.ofZ g) (Js.ofZ b)) ].

(** The Warm band in terms of the bytes: every colour of [warmInner] is Warm
    and every Warm colour is in [warmOuter].  Blue is the smallest channel,
    the larger of red and green is at least 90, blue is at most 9/20 of it,
    and green - blue is at most 4/3 of red - blue; the two regions differ by
    the colours on the edges of the band, where rounding decides. *)
Definition warmInner (r g b : Z) : Prop :=
  90 <= Z.max r g /\ b <= g /\ b <= r /\ 20 * b < 9 * Z.max r g
  /\ (g <= r \/ 3 * (g - b) < 4 * (r - b)).

Definition warmOuter (r g b : Z) : Prop :=
  90 <= Z.max r g /\ b <= g /\ 20 * b <= 9 * Z.max r g
  /\ 3 * (g - b) <= 4 * (r - b).

(** For given [r] and [g], the blues of [warmInner] are those below
    [innerBound r g] and the blues of [warmOuter] those below
    [outerBound r g]. *)
Definition innerBound (r g : Z) : nat :=
  let m := Z.max r g in
  if 90 <=? m then
    Z.to_nat (Z.min (Z.min g r + 1)
                (Z.min ((9 * m - 1) / 20 + 1)
                   (if g <=? r then 256 else 4 * r - 3 * g)))
  else O.

Definition outerBound (r g : Z) : nat :=
  let m := Z.max r g in
  if 90 <=? m then
    Z.to_nat (Z.min (g + 1) (Z.min (4 * r - 3 * g + 1) (9 * m / 20 + 1)))
  else O.

(** The Warm test with its comparisons in another order. *)
Definition warmTest (r g b : float) : bool :=
  let (h, s, v) := rgbToHsv r g b in
  (0.35 <=? v)%float
  && ((0.55 <=? s)%float && ((0 <=? h)%float && (h <=? 75)%float)).

(** A test along a list: it must hold at the first [lo] places and fail from
    place [hi] on. *)
Fixpoint row (test : float -> bool) (lo hi : nat) (cs : list float) : bool :=
  match cs with
  | [] => true
  | x :: cs' =>
      match lo with
      | S lo' => test x && row test lo' (pred hi) cs'
      | O => match hi with
             | S hi' => row test O hi' cs'
             | O => negb (test x) && row test O O cs'
             end
      end
  end.

Definition channelsZ : list (Z * float) :=
  map (fun k => (Z.of_nat k, Js.ofZ (Z.of_nat k))) (seq 0 256).

Definition onEveryRow (test : float -> float -> float -> bool)
  (lo hi : Z -> Z -> nat) : bool :=
  let cs := channelsZ in
  let fs := channels in
  forallb (fun r => forallb (fun g =>
     row (test (snd r) (snd g)) (lo (fst r) (fst g)) (hi (fst r) (fst g)) fs)
     cs) cs.

(** The case of the ASCII letters: [lower] sends A-Z to a-z, [upper] sends
    a-z to A-Z, and both leave every other character as it is; and a string
    mapped character by character.  These are not JavaScript's [toLowerCase]
    and [toUpperCase], which also rewrite characters outside ASCII and can
    change the length of a string. *)
Definition lower (c : ascii) : ascii :=
  let n := N_of_ascii c in
  if (65 <=? n)%N && (n <=? 90)%N then ascii_of_N (n + 32) else c.

Definition upper (c : ascii) : ascii :=
  let n := N_of_ascii c in
  if (97 <=? n)%N && (n <=? 122)%N then ascii_of_N (n - 32) else c.

Fixpoint mapString (f : ascii -> ascii) (s : string) : string :=
  match s with
  | EmptyString => EmptyString
  | String c s' => String (f c) (mapString f s')
  end.

(** The six lower-case hexadecimal digits of a colour. *)
Definition hexChar (d : Z) : ascii :=
  if d <? 10 then ascii_of_N (Z.to_N (d + 48)) else ascii_of_N (Z.to_N (d + 87)).

Definition hexPair (v : Z) (rest : string) : string :=
  String (hexChar (v / 16)) (String (hexChar (v mod 16)) rest).

Definition toHexBody (c : Rgb.t) : string :=
  hexPair (Rgb.r c) (hexPair (Rgb.g c) (hexPair (Rgb.b c) EmptyString)).

(** The counters after one fully opaque pixel of the colour a string
    denotes. *)
Definition countedAs (hex : string) : option Counters.t :=
  match hexToRgb hex with
  | Some c =>
      Some (pixelStep (Some (Rgb.r c)) (Some (Rgb.g c)) (Some (Rgb.b c))
              (Some 255) Counters.zero)
  | None => None
  end.


(** * Part III: theorems *)

(** ** Scenarios of the specification, run on the model *)

Example scenario_magenta :
  let r := analyzeImagePixelData
             (image 2 2 [255;0;255;255; 255;0;255;255; 255;0;255;255; 255;0;255;255]) in
  AnalysisResult.totalPixels r = 4 /\ AnalysisResult.excludedPixels r = 4
  /\ AnalysisResult.processedPixels r = 0 /\ counts r = [0;0;0;0;0;0]
  /\ percentages r = [0;0;0;0;0;0]%float.
Proof. vm_compute. repeat split. Qed.

Example scenario_dark_green :
  let r := analyzeImagePixelData (image 1 1 [0;146;69;255]) in
  counts r = [0;1;0;0;0;0] /\ percentages r = [0;100;0;0;0;0]%float.
Proof. vm_compute. repeat split. Qed.

Example scenario_warm_red :
  let r := analyzeImagePixelData (image 1 1 [200;30;30;255]) in
  counts r = [1;0;0;0;0;0] /\ percentages r = [100;0;0;0;0;0]%float
  /\ Hsv.h (rgbToHsv 200 30 30) = 0%float.
Proof. vm_compute. repeat split. Qed.

Example scenario_translucent :
  let r := analyzeImagePixelData (image 1 1 [180;160;160;128]) in
  AnalysisResult.excludedPixels r = 1 /\ AnalysisResult.processedPixels r = 0.
Proof. vm_compute. repeat split. Qed.

Example scenario_near_black :
  counts (analyzeImagePixelData (image 1 1 [10;10;10;255])) = [0;0;0;0;0;1].
Proof. reflexivity. Qed.

Example scenario_border :
  AnalysisResult.excludedPixels
    (analyzeImagePixelData (image 1 1 [200;10;200;255])) = 1.
Proof. reflexivity. Qed.

(** ** The counters *)

Lemma var_eqb_eq (x y : Counters.var) : var_eqb x y = true <-> x = y.
Proof. destruct x, y; simpl; split; congruence. Qed.

(** [x++] adds one to [x] and leaves the six other counters alone. *)
Lemma read_incr (x y : Counters.var) (c : Counters.t) :
  Counters.read y (Counters.incr x c)
  = if var_eqb x y then Counters.read y c + 1 else Counters.read y c.
Proof. destruct x, y; reflexivity. Qed.

Lemma visited_incr (x : Counters.var) (c : Counters.t) :
  Counters.visited (Counters.incr x c) = Counters.visited c + 1.
Proof. destruct x; unfold Counters.visited, Counters.categorised; simpl; lia. Qed.

Lemma incr_inj (x y : Counters.var) (c : Counters.t) :
  Counters.incr x c = Counters.incr y c -> x = y.
Proof.
  intros E.
  assert (R : Counters.read x (Counters.incr x c)
              = Counters.read x (Counters.incr y c)) by now rewrite E.
  rewrite !read_incr in R.
  destruct (var_eqb y x) eqn:Eyx.
  - symmetry. now apply var_eqb_eq.
  - assert (Exx : var_eqb x x = true) by now apply var_eqb_eq.
    rewrite Exx in R. lia.
Qed.

Lemma visited_zero : Counters.visited Counters.zero = 0.
Proof. reflexivity. Qed.

(** ** One iteration *)

(** Every iteration increments exactly one of the seven counters, and which
    one depends on the four elements only. *)
Lemma pixelStep_incr (r g b a : option Z) :
  exists x, forall c, pixelStep r g b a c = Counters.incr x c.
Proof.
  unfold pixelStep.
  repeat match goal with
         | |- context [if ?t then _ else _] => destruct t
         end; eexists; intros c; reflexivity.
Qed.

Lemma visited_pixelStep (r g b a : option Z) (c : Counters.t) :
  Counters.visited (pixelStep r g b a c) = Counters.visited c + 1.
Proof.
  destruct (pixelStep_incr r g b a) as [x Hx].
  rewrite Hx. apply visited_incr.
Qed.

(** ** The loop *)

Lemma iterations_done (len i : nat) : (len <= i)%nat -> iterations len i = 0.
Proof.
  intros H. unfold iterations.
  replace (len - i)%nat with 0%nat by lia. reflexivity.
Qed.

Lemma iterations_step (len i : nat) :
  (i < len)%nat -> iterations len i = 1 + iterations len (i + 4).
Proof.
  intros H. unfold iterations.
  destruct (Nat.le_gt_cases len (i + 4)) as [Hle | Hgt].
  - replace (len - (i + 4))%nat with 0%nat by lia.
    assert (B : 1 <= Z.of_nat (len - i) <= 4) by lia.
    change ((Z.of_nat 0 + 3) / 4) with 0.
    assert (Z.of_nat (len - i) + 3 = 1 * 4 + (Z.of_nat (len - i) - 1)) as -> by lia.
    rewrite Z.add_comm, Z.div_add by lia.
    rewrite Z.div_small by lia. lia.
  - assert (Z.of_nat (len - i) + 3 = 1 * 4 + (Z.of_nat (len - (i + 4)) + 3)) as -> by lia.
    rewrite Z.add_comm, Z.div_add by lia. lia.
Qed.

Lemma iterations_multiple (n : Z) (len : nat) :
  Z.of_nat len = n * 4 -> iterations len 0 = n.
Proof.
  intros H. unfold iterations. rewrite Nat.sub_0_r, H.
  rewrite Z.add_comm, Z.div_add by lia. reflexivity.
Qed.

Section Loop.
Variable img : ImageData.t.

Let len := length (ImageData.data img).

(** With fuel for every remaining byte the loop has visited one pixel for
    each of its iterations. *)
Lemma visited_loop (fuel i : nat) (c : Counters.t) :
  (len - i <= fuel)%nat ->
  Counters.visited (loop fuel img i c) = Counters.visited c + iterations len i.
Proof.
  revert i c. induction fuel as [| fuel IH]; intros i c Hfuel; simpl.
  - rewrite iterations_done by lia. lia.
  - fold len. destruct (Nat.ltb_spec i len) as [Hlt | Hge].
    + rewrite IH by lia. rewrite visited_pixelStep.
      rewrite (iterations_step len i) by assumption. lia.
    + rewrite iterations_done by lia. lia.
Qed.

(** The loop leaves through its test [i < data.length], never for want of
    fuel: more fuel changes nothing. *)
Lemma loop_fuel (fuel extra i : nat) (c : Counters.t) :
  (len - i <= fuel)%nat ->
  loop (fuel + extra) img i c = loop fuel img i c.
Proof.
  revert i c. induction fuel as [| fuel IH]; intros i c Hfuel.
  - destruct extra as [| extra]; simpl; [reflexivity |].
    fold len. destruct (Nat.ltb_spec i len); [lia | reflexivity].
  - simpl. fold len. destruct (Nat.ltb_spec i len); [| reflexivity].
    apply IH. lia.
Qed.
End Loop.

(** ** The assembled result *)

Lemma analyze_assemble (img : ImageData.t) :
  analyzeImagePixelData img
  = assemble (ImageData.width img) (ImageData.height img) (finalCounters img).
Proof. reflexivity. Qed.

Lemma counts_assemble (w h : Z) (c : Counters.t) :
  counts (assemble w h c)
  = [ Counters.countWarm c; Counters.countDarkGreen c; Counters.countBlue c;
      Counters.countNeonGreen c; Counters.countGrey c; Counters.countOther c ].
Proof. reflexivity. Qed.

Lemma sumCounts_assemble (w h : Z) (c : Counters.t) :
  sumCounts (assemble w h c) = Counters.categorised c.
Proof.
  unfold sumCounts. rewrite counts_assemble.
  unfold Counters.categorised. simpl. lia.
Qed.

Lemma visited_final (img : ImageData.t) :
  Counters.visited (finalCounters img)
  = iterations (length (ImageData.data img)) 0.
Proof.
  unfold finalCounters. rewrite visited_loop by lia.
  rewrite visited_zero. lia.
Qed.

Lemma accounted_analyze (img : ImageData.t) :
  accounted (analyzeImagePixelData img)
  = iterations (length (ImageData.data img)) 0.
Proof.
  rewrite analyze_assemble. unfold accounted.
  rewrite sumCounts_assemble. simpl AnalysisResult.excludedPixels.
  apply visited_final.
Qed.

Lemma nonneg_zero : nonneg Counters.zero.
Proof. intros []; simpl; lia. Qed.

Lemma nonneg_pixelStep (r g b a : option Z) (c : Counters.t) :
  nonneg c -> nonneg (pixelStep r g b a c).
Proof.
  intros H y. destruct (pixelStep_incr r g b a) as [x Hx].
  rewrite Hx, read_incr. specialize (H y).
  destruct (var_eqb x y); lia.
Qed.

Lemma nonneg_loop (img : ImageData.t) (fuel i : nat) (c : Counters.t) :
  nonneg c -> nonneg (loop fuel img i c).
Proof.
  revert i c. induction fuel as [| fuel IH]; intros i c H; simpl.
  - assumption.
  - destruct (i <? length (ImageData.data img))%nat; [| assumption].
    apply IH, nonneg_pixelStep, H.
Qed.

Lemma nonneg_final (img : ImageData.t) : nonneg (finalCounters img).
Proof. apply nonneg_loop, nonneg_zero. Qed.

(** ** Conservation *)

Lemma accounted_wellFormed (img : ImageData.t) :
  ImageData.wellFormed img ->
  accounted (analyzeImagePixelData img)
  = ImageData.width img * ImageData.height img.
Proof.
  intros Hwf. rewrite accounted_analyze.
  apply iterations_multiple, Hwf.
Qed.

Lemma processed_wellFormed (img : ImageData.t) :
  ImageData.wellFormed img ->
  AnalysisResult.processedPixels (analyzeImagePixelData img)
  = Counters.categorised (finalCounters img).
Proof.
  intros Hwf. pose proof (accounted_wellFormed img Hwf) as Hacc.
  unfold accounted in Hacc.
  rewrite analyze_assemble in *. rewrite sumCounts_assemble in Hacc.
  simpl in *. lia.
Qed.

(** C2. For every bitmap, that is an input whose buffer holds four bytes for
    each of its width x height pixels, the result has
    [totalPixels = width * height] and
    [excludedPixels + sum of the six counts = totalPixels], the six counts sum
    to [processedPixels], and each iteration of the loop adds one to exactly
    one of the seven counters: a pixel is excluded or in exactly one
    category. *)
Theorem conservation (img : ImageData.t) :
  ImageData.wellFormed img ->
  let r := analyzeImagePixelData img in
  AnalysisResult.totalPixels r = ImageData.width img * ImageData.height img
  /\ AnalysisResult.excludedPixels r + sumCounts r = AnalysisResult.totalPixels r
  /\ sumCounts r = AnalysisResult.processedPixels r
  /\ (forall r g b a : option Z,
         exists x, (forall c, pixelStep r g b a c = Counters.incr x c)
                   /\ forall y, (forall c, pixelStep r g b a c = Counters.incr y c)
                                -> y = x).
Proof.
  intros Hwf r.
  assert (Hacc : accounted r = ImageData.width img * ImageData.height img)
    by apply accounted_wellFormed, Hwf.
  unfold accounted in Hacc.
  assert (Htot : AnalysisResult.totalPixels r
                 = ImageData.width img * ImageData.height img) by reflexivity.
  assert (Hproc : AnalysisResult.processedPixels r
                  = AnalysisResult.totalPixels r - AnalysisResult.excludedPixels r)
    by reflexivity.
  repeat split; try lia.
  intros pr pg pb pa. destruct (pixelStep_incr pr pg pb pa) as [x Hx].
  exists x. split; [exact Hx |].
  intros y Hy. apply (incr_inj y x Counters.zero).
  now rewrite <- Hx, <- Hy.
Qed.

Lemma conservation_witness :
  let img := image 2 1 [0;146;69;255; 255;0;255;255] in
  ImageData.wellFormed img
  /\ AnalysisResult.excludedPixels (analyzeImagePixelData img)
     + sumCounts (analyzeImagePixelData img)
     = AnalysisResult.totalPixels (analyzeImagePixelData img).
Proof.
  split; [reflexivity |].
  apply (conservation (image 2 1 [0;146;69;255; 255;0;255;255])).
  reflexivity.
Defined.

(** ** Output order *)

(** C8. Whatever the input, the categories of the result are the six entries
    Warm, Dark Green, Blue, Neon Green, Grey, Other in this order, with their
    fixed names and display colours: neither the order of the pixels nor the
    counts have a say. *)
Theorem categories_order (img : ImageData.t) :
  map ColorCategory.id (AnalysisResult.categories (analyzeImagePixelData img))
  = [ "warm"; "dark_green"; "blue"; "neon_green"; "grey"; "other" ]%string
  /\ map ColorCategory.name (AnalysisResult.categories (analyzeImagePixelData img))
     = [ "Warm (Red/Orange/Yellow)"; "Dark Green (#009245)"; "Blue (#0000ff)";
         "Neon Green (#00ff00)"; "Grey (#4d4d4d)"; "Other / Unclassified" ]%string
  /\ map ColorCategory.color (AnalysisResult.categories (analyzeImagePixelData img))
     = [ "#ed1c24"; "#009245"; "#0000ff"; "#00ff00"; "#4d4d4d"; "#9CA3AF" ]%string
  /\ counts (analyzeImagePixelData img)
     = [ Counters.countWarm (finalCounters img);
         Counters.countDarkGreen (finalCounters img);
         Counters.countBlue (finalCounters img);
         Counters.countNeonGreen (finalCounters img);
         Counters.countGrey (finalCounters img);
         Counters.countOther (finalCounters img) ].
Proof. repeat split. Qed.

(** ** The conversion on every colour *)

Lemma channels_complete (z : Z) : 0 <= z <= 255 -> In (Js.ofZ z) channels.
Proof.
  intros H. unfold channels. apply in_map_iff.
  exists (Z.to_nat z). split.
  - now rewrite Z2Nat.id by lia.
  - apply in_seq. lia.
Qed.

Lemma onEveryColour_spec (test : float -> float -> float -> bool) :
  onEveryColour test = true ->
  forall r g b : Z,
    0 <= r <= 255 -> 0 <= g <= 255 -> 0 <= b <= 255 ->
    test (Js.ofZ r) (Js.ofZ g) (Js.ofZ b) = true.
Proof.
  unfold onEveryColour. intros H r g b Hr Hg Hb.
  rewrite forallb_forall in H.
  specialize (H _ (channels_complete r Hr)).
  rewrite forallb_forall in H.
  specialize (H _ (channels_complete g Hg)).
  rewrite forallb_forall in H.
  exact (H _ (channels_complete b Hb)).
Qed.

(** The conversion evaluated on each of the 16 777 216 colours. *)
Lemma everyColour_inRange :
  onEveryColour (fun r g b => inRange (rgbToHsv r g b)) = true.
Proof. vm_compute. reflexivity. Qed.

Lemma onAll_In (P : float -> Prop) (l : list float) (x : float) :
  onAll P l -> In x l -> P x.
Proof.
  induction l as [| y l IH]; simpl; intros H Hin.
  - contradiction.
  - destruct H as [Hy Hl]. destruct Hin as [<- | Hin]; auto.
Qed.

(** With the three channels equal the hue is the constant [0], as a bit
    pattern and not only up to [===]. *)
Lemma achromatic_hue :
  onAll (fun x => Hsv.h (rgbToHsv x x x) = 0%float) channels.
Proof. vm_compute. repeat split. Qed.

(** C7. On every RGB triple with channels in [0,255] the conversion returns
    a value (it is a total function) with H in [0,360), S in [0,1], V in [0,1]
    and no NaN; S is 0 when the largest channel is 0, and H is 0 when the
    largest and the smallest channel coincide (black, greys, white). *)
Theorem rgbToHsv_safe (r g b : Z) :
  0 <= r <= 255 -> 0 <= g <= 255 -> 0 <= b <= 255 ->
  let x := rgbToHsv (Js.ofZ r) (Js.ofZ g) (Js.ofZ b) in
  ((0 <=? Hsv.h x)%float = true /\ (Hsv.h x <? 360)%float = true)
  /\ ((0 <=? Hsv.s x)%float = true /\ (Hsv.s x <=? 1)%float = true)
  /\ ((0 <=? Hsv.v x)%float = true /\ (Hsv.v x <=? 1)%float = true)
  /\ (Js.isNaN (Hsv.h x) = false /\ Js.isNaN (Hsv.s x) = false
      /\ Js.isNaN (Hsv.v x) = false)
  /\ (Z.max r (Z.max g b) = 0 -> Hsv.s x = 0%float)
  /\ (Z.max r (Z.max g b) = Z.min r (Z.min g b) -> Hsv.h x = 0%float).
Proof.
  intros Hr Hg Hb x.
  pose proof (onEveryColour_spec _ everyColour_inRange r g b Hr Hg Hb) as H.
  cbv beta in H. fold x in H.
  assert (Hrange :
            ((0 <=? Hsv.h x)%float = true /\ (Hsv.h x <? 360)%float = true)
            /\ ((0 <=? Hsv.s x)%float = true /\ (Hsv.s x <=? 1)%float = true)
            /\ ((0 <=? Hsv.v x)%float = true /\ (Hsv.v x <=? 1)%float = true)
            /\ (Js.isNaN (Hsv.h x) = false /\ Js.isNaN (Hsv.s x) = false
                /\ Js.isNaN (Hsv.v x) = false)).
  { destruct x as [h s v]. unfold inRange in H. simpl.
    rewrite !andb_true_iff, !negb_true_iff in H. tauto. }
  destruct Hrange as (Hh & Hs & Hv & Hnan).
  split; [exact Hh |]. split; [exact Hs |]. split; [exact Hv |].
  split; [exact Hnan |]. split.
  - intros Hmax.
    assert (r = 0 /\ g = 0 /\ b = 0) as (-> & -> & ->) by lia.
    reflexivity.
  - intros Hflat.
    assert (g = r /\ b = r) as (-> & ->) by lia.
    unfold x.
    exact (onAll_In _ _ _ achromatic_hue (channels_complete r Hr)).
Qed.

Lemma rgbToHsv_safe_witness :
  (0 <=? Hsv.h (rgbToHsv (Js.ofZ 12) (Js.ofZ 200) (Js.ofZ 7)))%float = true
  /\ (Hsv.h (rgbToHsv (Js.ofZ 12) (Js.ofZ 200) (Js.ofZ 7)) <? 360)%float = true.
Proof.
  apply (rgbToHsv_safe 12 200 7); lia.
Defined.

(** ** The order of the rules *)

Ltac step_by_tests :=
  unfold pixelStep;
  repeat match goal with
         | E : ?t = _ |- context [if ?t then _ else _] => rewrite E
         end;
  try reflexivity.

(** C4. A pixel with alpha below 255 goes to [excludedPixels] whatever its
    red, green and blue are (defined or not): no colour is looked at.  The
    pixel (0,146,69) of the Dark Green rule with alpha 128 is excluded. *)
Theorem opacity_first (r g b : option Z) (a : Z) (c : Counters.t) :
  a < 255 ->
  pixelStep r g b (Some a) c = Counters.incr Counters.ExcludedPixels c
  /\ pixelStep (Some 0) (Some 146) (Some 69) (Some 128) c
     = Counters.incr Counters.ExcludedPixels c.
Proof.
  intros Ha. split; [| reflexivity].
  assert (E : Js.lt (Some a) 255 = true) by (simpl; lia).
  step_by_tests.
Qed.

Lemma opacity_first_witness :
  pixelStep (Some 0) (Some 0) (Some 255) (Some 254) Counters.zero
  = Counters.mk 1 0 0 0 0 0 0.
Proof.
  apply (opacity_first (Some 0) (Some 0) (Some 255) 254 Counters.zero).
  lia.
Defined.



(** C6. A fully opaque pixel that is neither excluded nor matched by a strict
    rule is counted as Warm exactly when its converted value has
    0 <= H <= 75, S >= 0.55 and V >= 0.35, and as Other otherwise.  Both ends
    of the hue interval count ((200,30,30) has hue 0, (189,252,0) has hue 75)
    and there is no wrap-around: (255,0,4), of hue 359.06 with S = V = 1, is
    counted as Other. *)
Theorem warm_band (r g b a : option Z) (c : Counters.t) :
  Js.lt a 255 = false ->
  isMagenta r g b || isBorder r g b = false ->
  isRgb r g b 0 146 69 = false -> isRgb r g b 0 0 255 = false ->
  isRgb r g b 0 255 0 = false -> isRgb r g b 77 77 77 = false ->
  let hsv := rgbToHsv (Js.toNumber r) (Js.toNumber g) (Js.toNumber b) in
  let inBand :=
    (0 <=? Hsv.h hsv)%float = true /\ (Hsv.h hsv <=? 75)%float = true
    /\ (0.55 <=? Hsv.s hsv)%float = true /\ (0.35 <=? Hsv.v hsv)%float = true in
  (pixelStep r g b a c = Counters.incr Counters.CountWarm c <-> inBand)
  /\ (pixelStep r g b a c = Counters.incr Counters.CountOther c <-> ~ inBand)
  /\ (let red := rgbToHsv 200 30 30 in
      Hsv.h red = 0%float
      /\ pixelStep (Some 200) (Some 30) (Some 30) (Some 255) c
         = Counters.incr Counters.CountWarm c)
  /\ (let lime := rgbToHsv 189 252 0 in
      Hsv.h lime = 75%float
      /\ pixelStep (Some 189) (Some 252) (Some 0) (Some 255) c
         = Counters.incr Counters.CountWarm c)
  /\ (let crimson := rgbToHsv 255 0 4 in
      (359 <=? Hsv.h crimson)%float = true /\ (Hsv.h crimson <? 360)%float = true
      /\ Hsv.s crimson = 1%float /\ Hsv.v crimson = 1%float
      /\ pixelStep (Some 255) (Some 0) (Some 4) (Some 255) c
         = Counters.incr Counters.CountOther c).
Proof.
  intros Ha Hex H1 H2 H3 H4 hsv inBand.
  assert (Hband : isWarm hsv = true <-> inBand).
  { unfold isWarm, inBand. rewrite !andb_true_iff. tauto. }
  assert (Hstep : pixelStep r g b a c
                  = if isWarm hsv then Counters.incr Counters.CountWarm c
                    else Counters.incr Counters.CountOther c).
  { unfold hsv. step_by_tests. }
  split; [| split; [| repeat split; reflexivity]].
  - split.
    + intros E. apply Hband. rewrite Hstep in E.
      destruct (isWarm hsv); [reflexivity |].
      apply incr_inj in E. discriminate.
    + intros E. apply Hband in E. now rewrite Hstep, E.
  - split.
    + intros E Hin. apply Hband in Hin. rewrite Hstep, Hin in E.
      apply incr_inj in E. discriminate.
    + intros Hout. rewrite Hstep.
      destruct (isWarm hsv); [| reflexivity].
      exfalso. apply Hout, Hband. reflexivity.
Qed.

Lemma warm_band_witness :
  pixelStep (Some 255) (Some 0) (Some 4) (Some 255) Counters.zero
  = Counters.incr Counters.CountOther Counters.zero.
Proof.
  apply (warm_band (Some 255) (Some 0) (Some 4) (Some 255) Counters.zero);
    reflexivity.
Defined.

(** Rounding matters at the edge of the band: the saturation of (200,90,90)
    is 0.55 in exact arithmetic, the code computes 0.5499999999999999 and
    counts the pixel as Other. *)
Example saturation_edge :
  Hsv.s (rgbToHsv 200 90 90) = 0.54999999999999993%float
  /\ pixelStep (Some 200) (Some 90) (Some 90) (Some 255) Counters.zero
     = Counters.incr Counters.CountOther Counters.zero.
Proof. split; reflexivity. Qed.

(** ** Percentages *)

(** On every input each percentage is [(count / safeTotal) * 100], and
    [safeTotal] is not 0. *)
Lemma percentage_safeTotal (img : ImageData.t) :
  let r := analyzeImagePixelData img in
  Forall (fun cat => ColorCategory.percentage cat
                     = percentageOf (ColorCategory.count cat) (safeTotalOf r))
         (AnalysisResult.categories r)
  /\ safeTotalOf r <> 0.
Proof.
  intros r. split.
  - unfold r. rewrite analyze_assemble. repeat constructor.
  - unfold safeTotalOf.
    destruct (Z.eqb_spec (AnalysisResult.processedPixels r) 0); lia.
Qed.

Lemma categorised_nonneg (c : Counters.t) :
  nonneg c -> 0 <= Counters.categorised c.
Proof.
  intros H. unfold Counters.categorised.
  pose proof (H Counters.CountWarm). pose proof (H Counters.CountDarkGreen).
  pose proof (H Counters.CountBlue). pose proof (H Counters.CountNeonGreen).
  pose proof (H Counters.CountGrey). pose proof (H Counters.CountOther).
  simpl in *. lia.
Qed.

(** C3, as stated, fails.  On the well-formed [oneInThree] the code returns
    (1/3)*100 = 33.333333333333329 for Blue where 100*1/3 is
    33.333333333333336 (and 66.666666666666657 for 66.666666666666671 for
    Grey); on the ill-formed [overfull], where [processedPixels] is -1, it
    returns -100 for Blue where 100*1/max(-1,1) is 100. *)
Lemma percentage_law_fails :
  (ImageData.wellFormed oneInThree
   /\ AnalysisResult.processedPixels (analyzeImagePixelData oneInThree) = 3
   /\ counts (analyzeImagePixelData oneInThree) = [0; 0; 1; 0; 2; 0]
   /\ percentages (analyzeImagePixelData oneInThree)
      = [0; 0; 33.333333333333329; 0; 66.666666666666657; 0]%float
   /\ map (fun n => percentageLaw n 3) [0; 0; 1; 0; 2; 0]
      = [0; 0; 33.333333333333336; 0; 66.666666666666671; 0]%float
   /\ percentages (analyzeImagePixelData oneInThree)
      <> map (fun n => percentageLaw n 3) [0; 0; 1; 0; 2; 0])
  /\ (AnalysisResult.processedPixels (analyzeImagePixelData overfull) = -1
      /\ counts (analyzeImagePixelData overfull) = [0; 0; 1; 0; 0; 0]
      /\ percentages (analyzeImagePixelData overfull)
         = [-0; -0; -100; -0; -0; -0]%float
      /\ map (fun n => percentageLaw n (-1)) [0; 0; 1; 0; 0; 0]
         = [0; 0; 100; 0; 0; 0]%float).
Proof.
  repeat split; try reflexivity.
  intros H.
  apply (f_equal (fun l => (nth 2 l 0 =? 33.333333333333329)%float)) in H.
  vm_compute in H. discriminate.
Qed.

(** C3, amended.  On every well-formed input [processedPixels] is not
    negative, each category's percentage is the double
    [(count / max(processedPixels, 1)) * 100], quotient first, and the divisor
    is at least 1; when every pixel is excluded every count and every
    percentage is 0. *)
Theorem percentage_law (img : ImageData.t) :
  ImageData.wellFormed img ->
  let r := analyzeImagePixelData img in
  let divisor := Z.max (AnalysisResult.processedPixels r) 1 in
  0 <= AnalysisResult.processedPixels r
  /\ safeTotalOf r = divisor
  /\ Forall (fun cat => ColorCategory.percentage cat
                        = (Js.ofZ (ColorCategory.count cat) / Js.ofZ divisor
                           * 100)%float)
            (AnalysisResult.categories r)
  /\ (AnalysisResult.processedPixels r = 0 ->
      Forall (fun cat => ColorCategory.count cat = 0
                         /\ ColorCategory.percentage cat = 0%float)
             (AnalysisResult.categories r)).
Proof.
  intros Hwf r divisor.
  pose proof (processed_wellFormed img Hwf) as Hproc. fold r in Hproc.
  pose proof (nonneg_final img) as Hnn.
  pose proof (categorised_nonneg _ Hnn) as Hcat.
  assert (Hsafe : safeTotalOf r = divisor).
  { unfold safeTotalOf, divisor.
    destruct (Z.eqb_spec (AnalysisResult.processedPixels r) 0); lia. }
  split; [lia |]. split; [exact Hsafe |]. split.
  - rewrite <- Hsafe. apply (percentage_safeTotal img).
  - intros Hzero.
    assert (Hall : forall x, x <> Counters.ExcludedPixels ->
                             Counters.read x (finalCounters img) = 0).
    { rewrite Hzero in Hproc. unfold Counters.categorised in Hproc.
      pose proof (Hnn Counters.CountWarm). pose proof (Hnn Counters.CountDarkGreen).
      pose proof (Hnn Counters.CountBlue). pose proof (Hnn Counters.CountNeonGreen).
      pose proof (Hnn Counters.CountGrey). pose proof (Hnn Counters.CountOther).
      intros [] Hx; simpl in *; try lia. congruence. }
    pose proof (Hall Counters.CountWarm) as E1.
    pose proof (Hall Counters.CountDarkGreen) as E2.
    pose proof (Hall Counters.CountBlue) as E3.
    pose proof (Hall Counters.CountNeonGreen) as E4.
    pose proof (Hall Counters.CountGrey) as E5.
    pose proof (Hall Counters.CountOther) as E6.
    simpl in E1, E2, E3, E4, E5, E6.
    assert (Hst : (if AnalysisResult.processedPixels r =? 0 then 1
                   else AnalysisResult.processedPixels r) = 1)
      by now rewrite Hzero.
    unfold r in *. rewrite analyze_assemble in *.
    unfold assemble in *. cbv zeta in *.
    simpl AnalysisResult.processedPixels in Hst.
    simpl AnalysisResult.categories. rewrite Hst.
    rewrite E1, E2, E3, E4, E5, E6 by discriminate.
    repeat constructor.
Qed.

Lemma percentage_law_witness :
  Forall (fun cat => ColorCategory.percentage cat
                     = (Js.ofZ (ColorCategory.count cat) / Js.ofZ 3 * 100)%float)
         (AnalysisResult.categories (analyzeImagePixelData oneInThree)).
Proof.
  apply (percentage_law oneInThree). reflexivity.
Defined.

(** ** Inputs whose buffer does not fit the declared size *)




Lemma iterations_ceil (len : nat) : iterations len 0 = ceilQuarter (Z.of_nat len).
Proof. unfold iterations, ceilQuarter. now rewrite Nat.sub_0_r. Qed.



(** ** The engine and the caller's bitmap *)

Lemma loopM_loop (w h : Z) (s : Store.heap) (d : Store.loc) (fuel i : nat)
  (c : Counters.t) :
  Store.loopM d fuel i c s
  = (loop fuel (ImageData.mk w h (Store.bytesAt s d)) i c, s).
Proof.
  revert i c. induction fuel as [| fuel IH]; intros i c; simpl.
  - reflexivity.
  - unfold Store.bind, Store.dataLength, Store.dataGet. simpl.
    destruct (i <? length (Store.bytesAt s d))%nat.
    + apply IH.
    + reflexivity.
Qed.

Example dataSet_writes :
  snd (Store.dataSet 1%nat 1%nat 300 [Store.Image 1 1 1%nat; Store.Bytes [1; 2; 3; 4]])
  = [Store.Image 1 1 1%nat; Store.Bytes [1; 255; 3; 4]].
Proof. reflexivity. Qed.

(** No object literal of the result holds a reference. *)
Lemma refs_resultValue (r : AnalysisResult.t) :
  Store.refs (Store.resultValue r) = [].
Proof.
  destruct r as [t p e cats w h]. simpl.
  induction cats as [| c cats IH]; simpl.
  - reflexivity.
  - rewrite app_nil_r in *. exact IH.
Qed.

(** The program on the store computes what the function on the bitmap
    computes, and hands the store back. *)
Lemma analyze_on_store (s : Store.heap) (p q : Store.loc) (w h : Z)
  (d : list Z) :
  nth_error s p = Some (Store.Image w h q) ->
  nth_error s q = Some (Store.Bytes d) ->
  Store.analyzeImagePixelData p s
  = (Store.resultValue (analyzeImagePixelData (ImageData.mk w h d)), s).
Proof.
  intros Hp Hq.
  unfold Store.analyzeImagePixelData, Store.bind, Store.fieldWidth,
    Store.fieldHeight, Store.fieldData, Store.dataLength.
  rewrite Hp. rewrite (loopM_loop w h).
  assert (E : Store.bytesAt s q = d) by (unfold Store.bytesAt; now rewrite Hq).
  rewrite E. reflexivity.
Qed.

(** C9. A call on an [ImageData] object of the store, whose [data] refers to
    a buffer of the store, hands back the very same store: the object's
    width, height and reference, every byte of the buffer and every other
    object are as before.  The value it returns holds no reference at all,
    to the buffer or to anything else in the store, and it is the same value
    wherever the object and the buffer live: it depends on the width, the
    height and the bytes only. *)
Theorem input_untouched (s : Store.heap) (p q : Store.loc) (w h : Z)
  (d : list Z) :
  nth_error s p = Some (Store.Image w h q) ->
  nth_error s q = Some (Store.Bytes d) ->
  snd (Store.analyzeImagePixelData p s) = s
  /\ Store.refs (fst (Store.analyzeImagePixelData p s)) = []
  /\ (forall s' p' q',
         nth_error s' p' = Some (Store.Image w h q') ->
         nth_error s' q' = Some (Store.Bytes d) ->
         fst (Store.analyzeImagePixelData p' s')
         = fst (Store.analyzeImagePixelData p s)).
Proof.
  intros Hp Hq. pose proof (analyze_on_store s p q w h d Hp Hq) as E.
  split; [now rewrite E |]. split.
  - rewrite E. apply refs_resultValue.
  - intros s' p' q' Hp' Hq'.
    now rewrite E, (analyze_on_store s' p' q' w h d Hp' Hq').
Qed.

Lemma input_untouched_witness :
  snd (Store.analyzeImagePixelData 0%nat
         [Store.Image 1 1 1%nat; Store.Bytes [0; 146; 69; 255]])
  = [Store.Image 1 1 1%nat; Store.Bytes [0; 146; 69; 255]].
Proof.
  apply (input_untouched [Store.Image 1 1 1%nat; Store.Bytes [0; 146; 69; 255]]
           0%nat 1%nat 1 1 [0; 146; 69; 255]); reflexivity.
Defined.

(** * Part IV: further properties of the code *)

(** ** The loop, group by group *)

Lemma get_skipn (img : ImageData.t) (i k : nat) :
  ImageData.get img (i + k) = nth_error (skipn i (ImageData.data img)) k.
Proof.
  unfold ImageData.get. generalize (ImageData.data img). intros l.
  revert l. induction i as [| i IH]; intros l; simpl.
  - reflexivity.
  - destruct l as [| x l]; simpl.
    + now destruct k.
    + apply IH.
Qed.

Lemma skipn_four (l : list Z) (i : nat) : skipn (i + 4) l = skipn 4 (skipn i l).
Proof. rewrite Nat.add_comm. symmetry. apply skipn_skipn. Qed.

Lemma loop_groups (img : ImageData.t) (fuel i : nat) (c : Counters.t) :
  (length (ImageData.data img) - i <= fuel)%nat ->
  loop fuel img i c
  = fold_left stepGroup (groups (skipn i (ImageData.data img))) c.
Proof.
  revert i c. induction fuel as [| fuel IH]; intros i c Hfuel.
  - simpl. rewrite skipn_all2 by lia. reflexivity.
  - simpl. destruct (Nat.ltb_spec i (length (ImageData.data img))) as [Hlt | Hge].
    + rewrite IH by lia. rewrite skipn_four.
      pose proof (get_skipn img i 0) as G0. rewrite Nat.add_0_r in G0.
      rewrite G0, !get_skipn. clear G0.
      assert (Hne : skipn i (ImageData.data img) <> []).
      { intros E. apply (f_equal (@length Z)) in E.
        rewrite length_skipn in E. simpl in E. lia. }
      destruct (skipn i (ImageData.data img)) as [| r [| g [| b [| a rest]]]];
        try contradiction; reflexivity.
    + rewrite skipn_all2 by lia. reflexivity.
Qed.

Lemma final_groups (img : ImageData.t) :
  finalCounters img
  = fold_left stepGroup (groups (ImageData.data img)) Counters.zero.
Proof. unfold finalCounters. rewrite loop_groups by lia. reflexivity. Qed.

Lemma groups_bytesOf (ps : list Pixel.t) (rest : list Z) :
  groups (bytesOf ps ++ rest) = map groupOf ps ++ groups rest.
Proof.
  induction ps as [| p ps IH]; simpl.
  - reflexivity.
  - now rewrite IH.
Qed.

Lemma final_pixels (w h : Z) (ps : list Pixel.t) (rest : list Z) :
  finalCounters (image w h (bytesOf ps ++ rest))
  = fold_left stepGroup (groups rest)
      (fold_left stepGroup (map groupOf ps) Counters.zero).
Proof.
  rewrite final_groups. simpl ImageData.data.
  now rewrite groups_bytesOf, fold_left_app.
Qed.

Lemma final_whole_pixels (w h : Z) (ps : list Pixel.t) :
  finalCounters (image w h (bytesOf ps))
  = fold_left stepGroup (map groupOf ps) Counters.zero.
Proof.
  rewrite <- (app_nil_r (bytesOf ps)). now rewrite final_pixels.
Qed.

(** X1. The counters the loop ends with are the loop body folded over the
    groups of four bytes of the buffer, in order, the last group padded with
    [undefined]; the declared width and height play no part in them. *)
Theorem counters_by_groups (img : ImageData.t) (w h : Z) :
  finalCounters img
  = fold_left stepGroup (groups (ImageData.data img)) Counters.zero
  /\ finalCounters (image w h (ImageData.data img)) = finalCounters img.
Proof.
  split; [apply final_groups |]. now rewrite !final_groups.
Qed.

Lemma incr_comm (x y : Counters.var) (c : Counters.t) :
  Counters.incr x (Counters.incr y c) = Counters.incr y (Counters.incr x c).
Proof. destruct x, y; reflexivity. Qed.

Lemma stepGroup_comm (p q : option Z * option Z * option Z * option Z)
  (c : Counters.t) :
  stepGroup (stepGroup c p) q = stepGroup (stepGroup c q) p.
Proof.
  destruct p as [[[r g] b] a], q as [[[r' g'] b'] a']. simpl.
  destruct (pixelStep_incr r g b a) as [x Hx].
  destruct (pixelStep_incr r' g' b' a') as [y Hy].
  rewrite !Hx, !Hy. apply incr_comm.
Qed.

Lemma fold_stepGroup_perm (l l' : list (option Z * option Z * option Z * option Z)) :
  Permutation l l' ->
  forall c, fold_left stepGroup l c = fold_left stepGroup l' c.
Proof.
  induction 1 as [| p l l' _ IH | p q l | l l' l'' _ IH1 _ IH2]; intros c; simpl.
  - reflexivity.
  - apply IH.
  - now rewrite stepGroup_comm.
  - now rewrite IH1.
Qed.

(** X2. The result does not depend on the order of the pixels: two buffers
    of whole pixels that are permutations of each other, pixel by pixel, give
    the same [AnalysisResult], percentages included. *)
Theorem pixel_order_irrelevant (w h : Z) (ps ps' : list Pixel.t) :
  Permutation ps ps' ->
  analyzeImagePixelData (image w h (bytesOf ps))
  = analyzeImagePixelData (image w h (bytesOf ps')).
Proof.
  intros HP. rewrite !analyze_assemble. f_equal.
  rewrite !final_whole_pixels.
  apply fold_stepGroup_perm. now apply Permutation_map.
Qed.

Lemma pixel_order_irrelevant_witness :
  analyzeImagePixelData
    (image 2 1 (bytesOf [Pixel.mk 0 0 255 255; Pixel.mk 200 30 30 255]))
  = analyzeImagePixelData
      (image 2 1 (bytesOf [Pixel.mk 200 30 30 255; Pixel.mk 0 0 255 255])).
Proof.
  apply (pixel_order_irrelevant 2 1
           [Pixel.mk 0 0 255 255; Pixel.mk 200 30 30 255]
           [Pixel.mk 200 30 30 255; Pixel.mk 0 0 255 255]).
  apply perm_swap.
Defined.

Lemma incr_add (x : Counters.var) (c d : Counters.t) :
  Counters.incr x (addCounters c d) = addCounters c (Counters.incr x d).
Proof. destruct x; unfold addCounters; simpl; f_equal; lia. Qed.

Lemma fold_stepGroup_add (l : list (option Z * option Z * option Z * option Z)) :
  forall c d,
    fold_left stepGroup l (addCounters c d)
    = addCounters c (fold_left stepGroup l d).
Proof.
  induction l as [| [[[r g] b] a] l IH]; intros c d; simpl.
  - reflexivity.
  - destruct (pixelStep_incr r g b a) as [x Hx].
    rewrite !Hx, incr_add. apply IH.
Qed.

Lemma addCounters_zero_r (c : Counters.t) : addCounters c Counters.zero = c.
Proof. destruct c; unfold addCounters; simpl; f_equal; lia. Qed.

(** X3. Counting is additive over a split of the buffer at a pixel
    boundary: the counters of whole pixels followed by any further bytes are
    the sums of the counters of the two parts analysed on their own,
    whatever dimensions are declared for the parts. *)
Theorem partition_additive (w h w1 h1 w2 h2 : Z) (ps : list Pixel.t)
  (rest : list Z) :
  finalCounters (image w h (bytesOf ps ++ rest))
  = addCounters (finalCounters (image w1 h1 (bytesOf ps)))
                (finalCounters (image w2 h2 rest)).
Proof.
  rewrite final_pixels, final_whole_pixels, final_groups. simpl ImageData.data.
  rewrite <- (addCounters_zero_r
                (fold_left stepGroup (map groupOf ps) Counters.zero)) at 1.
  apply fold_stepGroup_add.
Qed.

(** ** The tests of the loop body, in terms of the bytes *)

(** Boolean tests on defined bytes, as facts about integers. *)
Ltac tests_to_Z :=
  unfold isMagenta, isBorder, isRgb, Js.strictEq, Js.gt, Js.lt in *;
  repeat match goal with
         | H : _ && _ = true |- _ => apply andb_prop in H; destruct H
         | H : _ || _ = false |- _ => apply orb_false_elim in H; destruct H
         | H : (_ =? _) = true |- _ => apply Z.eqb_eq in H
         | H : (_ =? _) = false |- _ => apply Z.eqb_neq in H
         | H : (_ <? _) = true |- _ => apply Z.ltb_lt in H
         | H : (_ <? _) = false |- _ => apply Z.ltb_ge in H
         | H : (_ >? _) = true |- _ => apply Z.gtb_lt in H
         | H : (_ >? _) = false |- _ => rewrite Z.gtb_ltb in H
         end.

Lemma isMagenta_isBorder (r g b : option Z) :
  isMagenta r g b = true -> isBorder r g b = true.
Proof.
  destruct r as [r |], g as [g |], b as [b |]; unfold isMagenta, isRgb; simpl;
    try discriminate; try (rewrite ?andb_false_r; discriminate).
  intros H. tests_to_Z. subst. reflexivity.
Qed.

Lemma isBorder_Z (r g b : Z) :
  isBorder (Some r) (Some g) (Some b) = true <-> 150 < r /\ 150 < b /\ g < 60.
Proof.
  unfold isBorder, Js.gt, Js.lt. rewrite !andb_true_iff.
  rewrite !Z.gtb_ltb, !Z.ltb_lt. tauto.
Qed.

(** X4. A pixel is excluded exactly when its alpha is below 255 or it is a
    border pixel (R > 150, B > 150, G < 60); the magenta background
    (255,0,255) is one of the border pixels, so its own test never decides. *)
Theorem excluded_iff_border (r g b a : Z) (c : Counters.t) :
  (isMagenta (Some r) (Some g) (Some b) = true -> 150 < r /\ 150 < b /\ g < 60)
  /\ (pixelStep (Some r) (Some g) (Some b) (Some a) c
      = Counters.incr Counters.ExcludedPixels c
      <-> a < 255 \/ (150 < r /\ 150 < b /\ g < 60)).
Proof.
  split.
  - intros H. apply isBorder_Z. now apply isMagenta_isBorder.
  - unfold pixelStep. simpl Js.lt.
    destruct (Z.ltb_spec a 255) as [Ha | Ha]; [tauto |].
    destruct (isMagenta (Some r) (Some g) (Some b)) eqn:Em.
    { apply isMagenta_isBorder in Em. rewrite Em. cbn [orb].
      apply isBorder_Z in Em. tauto. }
    destruct (isBorder (Some r) (Some g) (Some b)) eqn:Eb; cbn [orb].
    { apply isBorder_Z in Eb. tauto. }
    assert (Hnb : ~ (150 < r /\ 150 < b /\ g < 60)).
    { intros Hb. apply isBorder_Z in Hb. congruence. }
    split; [| intros [? | ?]; [lia | contradiction]].
    intros E. exfalso.
    repeat match type of E with
           | (if ?t then _ else _) = _ => destruct t
           end;
      apply incr_inj in E; discriminate.
Qed.

(** ** The Warm band in terms of the bytes *)

Lemma warmTest_isWarm (r g b : float) :
  warmTest r g b = isWarm (rgbToHsv r g b).
Proof.
  unfold warmTest, isWarm. destruct (rgbToHsv r g b) as [h s v]. simpl.
  destruct (0.35 <=? v)%float, (0.55 <=? s)%float, (0 <=? h)%float,
    (h <=? 75)%float; reflexivity.
Qed.

Lemma row_spec (test : float -> bool) (cs : list float) :
  forall lo hi k x,
    row test lo hi cs = true -> nth_error cs k = Some x ->
    ((k < lo)%nat -> test x = true)
    /\ ((lo <= k)%nat -> (hi <= k)%nat -> test x = false).
Proof.
  induction cs as [| y cs IH]; intros lo hi k x Hrow Hk.
  - destruct k; discriminate.
  - simpl in Hrow. destruct lo as [| lo].
    + destruct hi as [| hi].
      * apply andb_prop in Hrow. destruct Hrow as [Hy Hrow].
        destruct k as [| k]; simpl in Hk.
        -- injection Hk as <-. split; [lia |].
           intros _ _. now apply negb_true_iff.
        -- destruct (IH _ _ _ _ Hrow Hk) as [_ H2]. split; [lia |].
           intros _ _. apply H2; lia.
      * destruct k as [| k]; simpl in Hk.
        -- split; lia.
        -- destruct (IH _ _ _ _ Hrow Hk) as [_ H2]. split; [lia |].
           intros _ Hn. apply H2; lia.
    + apply andb_prop in Hrow. destruct Hrow as [Hy Hrow].
      destruct k as [| k]; simpl in Hk.
      * injection Hk as <-. split; [auto | lia].
      * destruct (IH _ _ _ _ Hrow Hk) as [H1 H2]. split.
        -- intros Hlt. apply H1. lia.
        -- intros Hge Hn. apply H2; lia.
Qed.

Lemma channelsZ_complete (z : Z) : 0 <= z <= 255 -> In (z, Js.ofZ z) channelsZ.
Proof.
  intros H. unfold channelsZ. apply in_map_iff.
  exists (Z.to_nat z). rewrite Z2Nat.id by lia. split; [reflexivity |].
  apply in_seq. lia.
Qed.

Lemma channels_nth (z : Z) :
  0 <= z <= 255 -> nth_error channels (Z.to_nat z) = Some (Js.ofZ z).
Proof.
  intros H. unfold channels.
  rewrite nth_error_map, nth_error_seq.
  destruct (Nat.ltb_spec (Z.to_nat z) 256); [| lia].
  simpl. now rewrite Z2Nat.id by lia.
Qed.

Lemma onEveryRow_spec (test : float -> float -> float -> bool)
  (lo hi : Z -> Z -> nat) :
  onEveryRow test lo hi = true ->
  forall r g b : Z,
    0 <= r <= 255 -> 0 <= g <= 255 -> 0 <= b <= 255 ->
    ((Z.to_nat b < lo r g)%nat -> test (Js.ofZ r) (Js.ofZ g) (Js.ofZ b) = true)
    /\ ((lo r g <= Z.to_nat b)%nat -> (hi r g <= Z.to_nat b)%nat ->
        test (Js.ofZ r) (Js.ofZ g) (Js.ofZ b) = false).
Proof.
  unfold onEveryRow. intros H r g b Hr Hg Hb.
  rewrite forallb_forall in H. specialize (H _ (channelsZ_complete r Hr)).
  rewrite forallb_forall in H. specialize (H _ (channelsZ_complete g Hg)).
  cbv beta in H. simpl fst in H. simpl snd in H.
  exact (row_spec _ _ _ _ _ _ H (channels_nth b Hb)).
Qed.

(** The Warm test evaluated on each of the 16 777 216 colours, row by row. *)
Lemma everyRow_warm : onEveryRow warmTest innerBound outerBound = true.
Proof. vm_compute. reflexivity. Qed.

Lemma innerBound_spec (r g b : Z) :
  0 <= r <= 255 -> 0 <= g <= 255 -> 0 <= b <= 255 ->
  warmInner r g b -> (Z.to_nat b < innerBound r g)%nat.
Proof.
  intros Hr Hg Hb (Hm & Hbg & Hbr & Hs & Hh). unfold innerBound. cbv zeta.
  destruct (Z.leb_spec 90 (Z.max r g)); [| lia].
  assert (b <= (9 * Z.max r g - 1) / 20).
  { apply Z.div_le_lower_bound; lia. }
  destruct (Z.leb_spec g r); lia.
Qed.

Lemma outerBound_spec (r g b : Z) :
  0 <= r <= 255 -> 0 <= g <= 255 -> 0 <= b <= 255 ->
  ~ warmOuter r g b -> (outerBound r g <= Z.to_nat b)%nat.
Proof.
  intros Hr Hg Hb Hn. unfold outerBound. cbv zeta.
  destruct (Z.leb_spec 90 (Z.max r g)); [| lia].
  destruct (Z_le_gt_dec
              (Z.min (g + 1)
                 (Z.min (4 * r - 3 * g + 1) (9 * Z.max r g / 20 + 1))) b);
    [lia |].
  exfalso. apply Hn. unfold warmOuter.
  assert (b <= 9 * Z.max r g / 20) by lia.
  assert (20 * b <= 9 * Z.max r g).
  { pose proof (Z.mul_div_le (9 * Z.max r g) 20). lia. }
  lia.
Qed.

Lemma bounds_ordered (r g : Z) :
  0 <= r <= 255 -> 0 <= g <= 255 -> (innerBound r g <= outerBound r g)%nat.
Proof.
  intros Hr Hg. unfold innerBound, outerBound. cbv zeta.
  destruct (Z.leb_spec 90 (Z.max r g)); [| lia].
  assert ((9 * Z.max r g - 1) / 20 <= 9 * Z.max r g / 20)
    by (apply Z.div_le_mono; lia).
  destruct (Z.leb_spec g r); lia.
Qed.

Lemma isWarm_inner (r g b : Z) :
  0 <= r <= 255 -> 0 <= g <= 255 -> 0 <= b <= 255 ->
  warmInner r g b -> isWarm (rgbToHsv (Js.ofZ r) (Js.ofZ g) (Js.ofZ b)) = true.
Proof.
  intros Hr Hg Hb Hi.
  destruct (onEveryRow_spec _ _ _ everyRow_warm r g b Hr Hg Hb) as [Hin _].
  rewrite warmTest_isWarm in Hin. apply Hin. now apply innerBound_spec.
Qed.

Lemma isWarm_outer (r g b : Z) :
  0 <= r <= 255 -> 0 <= g <= 255 -> 0 <= b <= 255 ->
  isWarm (rgbToHsv (Js.ofZ r) (Js.ofZ g) (Js.ofZ b)) = true -> warmOuter r g b.
Proof.
  intros Hr Hg Hb Hw.
  destruct (onEveryRow_spec _ _ _ everyRow_warm r g b Hr Hg Hb) as [_ Hout].
  rewrite warmTest_isWarm in Hout.
  assert (Hdec : warmOuter r g b \/ ~ warmOuter r g b) by (unfold warmOuter; lia).
  destruct Hdec as [Ho | Hno]; [exact Ho |].
  pose proof (outerBound_spec r g b Hr Hg Hb Hno) as Ho.
  pose proof (bounds_ordered r g Hr Hg) as Hord.
  rewrite Hout in Hw by lia. discriminate.
Qed.

(** X5. The Warm band in integers.  For bytes [r], [g], [b]: if blue is the
    smallest channel, max(r,g) >= 90, 20 b < 9 max(r,g), and either g <= r or
    3 (g - b) < 4 (r - b), the colour passes the Warm test; and a colour that
    passes it has max(r,g) >= 90, b <= g, 20 b <= 9 max(r,g) and
    3 (g - b) <= 4 (r - b).  Between the two lie only colours on the edge of
    the band (hue exactly 75 or saturation exactly 0.55 before rounding). *)
Theorem warm_region (r g b : Z) :
  0 <= r <= 255 -> 0 <= g <= 255 -> 0 <= b <= 255 ->
  let w := isWarm (rgbToHsv (Js.ofZ r) (Js.ofZ g) (Js.ofZ b)) in
  (warmInner r g b -> w = true) /\ (w = true -> warmOuter r g b)
  /\ (warmOuter r g b ->
      warmInner r g b \/ 20 * b = 9 * Z.max r g
      \/ (r < g /\ 3 * (g - b) = 4 * (r - b))).
Proof.
  intros Hr Hg Hb w. split; [| split].
  - now apply isWarm_inner.
  - now apply isWarm_outer.
  - unfold warmOuter, warmInner. lia.
Qed.

Lemma warm_region_witness :
  isWarm (rgbToHsv (Js.ofZ 230) (Js.ofZ 120) (Js.ofZ 20)) = true.
Proof.
  assert (H1 : 0 <= 230 <= 255) by lia.
  assert (H2 : 0 <= 120 <= 255) by lia.
  assert (H3 : 0 <= 20 <= 255) by lia.
  destruct (warm_region 230 120 20 H1 H2 H3) as [Hin _].
  apply Hin. unfold warmInner. lia.
Defined.

(** X6. On bytes the six tests of the loop body exclude each other: of
    "magenta or border", the four strict colours and the Warm band at most
    one holds for any colour, so no count depends on the order in which the
    tests are written. *)
Theorem rules_disjoint (r g b : Z) :
  0 <= r <= 255 -> 0 <= g <= 255 -> 0 <= b <= 255 ->
  (length (filter (fun t => t) (ruleTests r g b)) <= 1)%nat.
Proof.
  intros Hr Hg Hb. unfold ruleTests.
  pose proof (isWarm_outer r g b Hr Hg Hb) as Hw.
  pose proof (isMagenta_isBorder (Some r) (Some g) (Some b)) as Hm.
  destruct (isWarm _) eqn:Ew;
    [specialize (Hw eq_refl); unfold warmOuter in Hw | clear Hw];
    (destruct (isMagenta _ _ _) eqn:E0;
     [specialize (Hm eq_refl); rewrite Hm | clear Hm;
      destruct (isBorder _ _ _) eqn:E0']);
    destruct (isRgb _ _ _ 0 146 69) eqn:E1;
    destruct (isRgb _ _ _ 0 0 255) eqn:E2;
    destruct (isRgb _ _ _ 0 255 0) eqn:E3;
    destruct (isRgb _ _ _ 77 77 77) eqn:E4;
    simpl; try lia; exfalso;
    try apply isBorder_Z in Hm; try apply isBorder_Z in E0';
    clear E0; tests_to_Z; lia.
Qed.

Lemma rules_disjoint_witness :
  (length (filter (fun t => t) (ruleTests 0 146 69)) <= 1)%nat.
Proof.
  apply (rules_disjoint 0 146 69); lia.
Defined.

(** X7. A fully opaque pixel with three equal channels (black, the greys,
    white) is counted as Grey when the channels are 77 and as Other
    otherwise: it is never excluded and never Warm. *)
Theorem achromatic_pixels (x a : Z) (c : Counters.t) :
  0 <= x <= 255 -> 255 <= a ->
  pixelStep (Some x) (Some x) (Some x) (Some a) c
  = Counters.incr (if x =? 77 then Counters.CountGrey else Counters.CountOther) c.
Proof.
  intros Hx Ha. unfold pixelStep.
  assert (E0 : Js.lt (Some a) 255 = false) by (simpl; lia).
  assert (E1 : isMagenta (Some x) (Some x) (Some x)
               || isBorder (Some x) (Some x) (Some x) = false).
  { apply orb_false_intro.
    - unfold isMagenta, isRgb, Js.strictEq.
      destruct (Z.eqb_spec x 255); destruct (Z.eqb_spec x 0); simpl; auto; lia.
    - destruct (isBorder _ _ _) eqn:E; [| reflexivity].
      apply isBorder_Z in E. lia. }
  assert (E2 : isRgb (Some x) (Some x) (Some x) 0 146 69 = false).
  { unfold isRgb, Js.strictEq.
    destruct (Z.eqb_spec x 0); destruct (Z.eqb_spec x 146); simpl; auto; lia. }
  assert (E3 : isRgb (Some x) (Some x) (Some x) 0 0 255 = false).
  { unfold isRgb, Js.strictEq.
    destruct (Z.eqb_spec x 0); destruct (Z.eqb_spec x 255); simpl; auto; lia. }
  assert (E4 : isRgb (Some x) (Some x) (Some x) 0 255 0 = false).
  { unfold isRgb, Js.strictEq.
    destruct (Z.eqb_spec x 0); destruct (Z.eqb_spec x 255); simpl; auto; lia. }
  assert (E5 : isRgb (Some x) (Some x) (Some x) 77 77 77 = (x =? 77)).
  { unfold isRgb, Js.strictEq. destruct (x =? 77); reflexivity. }
  assert (E6 : isWarm (rgbToHsv (Js.toNumber (Some x)) (Js.toNumber (Some x))
                         (Js.toNumber (Some x))) = false).
  { simpl Js.toNumber. destruct (isWarm _) eqn:E; [| reflexivity].
    apply isWarm_outer in E; try assumption. unfold warmOuter in E. lia. }
  rewrite E0, E1, E2, E3, E4, E5, E6.
  destruct (x =? 77); reflexivity.
Qed.

Lemma achromatic_pixels_witness :
  pixelStep (Some 255) (Some 255) (Some 255) (Some 255) Counters.zero
  = Counters.incr Counters.CountOther Counters.zero.
Proof.
  apply (achromatic_pixels 255 255 Counters.zero); lia.
Defined.

(** ** Bytes after the last whole pixel *)

Lemma isWarm_undefined_blue (r g : float) : isWarm (rgbToHsv r g nan) = false.
Proof.
  assert (Emax : forall x, Js.max2 x nan = nan).
  { intros x. unfold Js.max2.
    replace (Js.isNaN nan) with true by reflexivity.
    now rewrite orb_true_r. }
  unfold isWarm, rgbToHsv, Js.Math_max. cbv zeta.
  change (nan / 255)%float with nan. rewrite !Emax. simpl Hsv.v.
  apply andb_false_r.
Qed.

Lemma pixelStep_undefined_blue (r g : option Z) (c : Counters.t) :
  pixelStep r g None None c = Counters.incr Counters.CountOther c.
Proof.
  unfold pixelStep. simpl Js.lt. cbv iota.
  unfold isMagenta, isBorder, isRgb. simpl Js.strictEq. simpl Js.gt.
  rewrite !andb_false_r. simpl.
  simpl Js.toNumber. now rewrite isWarm_undefined_blue.
Qed.

(** X8. Bytes left over after the last whole pixel still make the loop run
    once more.  One or two such bytes are always counted as one Other pixel,
    whatever their values; three such bytes are counted as the fully opaque
    pixel of these three channels. *)
Theorem leftover_bytes (w h : Z) (ps : list Pixel.t) :
  (forall tail : list Z,
      (1 <= length tail <= 2)%nat ->
      finalCounters (image w h (bytesOf ps ++ tail))
      = Counters.incr Counters.CountOther (finalCounters (image w h (bytesOf ps))))
  /\ (forall r g b : Z,
         finalCounters (image w h (bytesOf ps ++ [r; g; b]))
         = finalCounters (image w h (bytesOf (ps ++ [Pixel.mk r g b 255])))).
Proof.
  split.
  - intros tail Ht. rewrite final_pixels, final_whole_pixels.
    destruct tail as [| x [| y [| z tail]]]; simpl in Ht; try lia; simpl;
      apply pixelStep_undefined_blue.
  - intros r g b. rewrite final_pixels, final_whole_pixels.
    rewrite map_app, fold_left_app. reflexivity.
Qed.

(** ** Bounds and per-class counts *)

(** X9. On a well-formed input every number of the result is in range:
    excludedPixels and processedPixels lie between 0 and totalPixels, and
    every category count lies between 0 and processedPixels. *)
Theorem result_bounds (img : ImageData.t) :
  ImageData.wellFormed img ->
  let r := analyzeImagePixelData img in
  0 <= AnalysisResult.excludedPixels r <= AnalysisResult.totalPixels r
  /\ 0 <= AnalysisResult.processedPixels r <= AnalysisResult.totalPixels r
  /\ Forall (fun cat =>
               0 <= ColorCategory.count cat <= AnalysisResult.processedPixels r)
            (AnalysisResult.categories r).
Proof.
  intros Hwf r.
  pose proof (processed_wellFormed img Hwf) as Hproc. fold r in Hproc.
  pose proof (nonneg_final img) as Hnn.
  pose proof (Hnn Counters.ExcludedPixels) as H0.
  pose proof (Hnn Counters.CountWarm) as H1.
  pose proof (Hnn Counters.CountDarkGreen) as H2.
  pose proof (Hnn Counters.CountBlue) as H3.
  pose proof (Hnn Counters.CountNeonGreen) as H4.
  pose proof (Hnn Counters.CountGrey) as H5.
  pose proof (Hnn Counters.CountOther) as H6.
  assert (Htot : AnalysisResult.processedPixels r
                 = AnalysisResult.totalPixels r - AnalysisResult.excludedPixels r)
    by reflexivity.
  assert (Hex : AnalysisResult.excludedPixels r
                = Counters.excludedPixels (finalCounters img)) by reflexivity.
  unfold Counters.categorised in Hproc. simpl in H0, H1, H2, H3, H4, H5, H6.
  split; [lia |]. split; [lia |].
  rewrite Hproc. unfold r. rewrite analyze_assemble. simpl.
  repeat constructor; simpl; lia.
Qed.

Lemma result_bounds_witness :
  0 <= AnalysisResult.excludedPixels (analyzeImagePixelData oneInThree)
    <= AnalysisResult.totalPixels (analyzeImagePixelData oneInThree).
Proof.
  apply (result_bounds oneInThree). reflexivity.
Defined.

Lemma fold_read (x : Counters.var) (q : Pixel.t -> bool) :
  (forall p c, Counters.read x (stepGroup c (groupOf p))
               = Counters.read x c + (if q p then 1 else 0)) ->
  forall ps c,
    Counters.read x (fold_left stepGroup (map groupOf ps) c)
    = Counters.read x c + countOf q ps.
Proof.
  intros Hstep ps. unfold countOf.
  induction ps as [| p ps IH]; intros c; cbn [fold_left map filter].
  - simpl. lia.
  - rewrite IH, Hstep. destruct (q p); simpl length; lia.
Qed.

Ltac decide_class :=
  match goal with
  | |- context [if ?t then 1 else 0] =>
      destruct t eqn:?; try lia; exfalso;
      unfold excludedPixel, opaqueRgb in *; simpl in *;
      repeat match goal with
             | H : _ && _ = true |- _ => apply andb_prop in H; destruct H
             | H : _ || _ = true |- _ => apply orb_prop in H; destruct H
             | H : _ || _ = false |- _ => apply orb_false_elim in H; destruct H
             | H : isBorder _ _ _ = true |- _ => apply isBorder_Z in H
             | H : isMagenta _ _ _ = true |- _ =>
                 apply isMagenta_isBorder in H
             end;
      tests_to_Z; lia
  end.

Lemma step_excluded (p : Pixel.t) (c : Counters.t) :
  Counters.read Counters.ExcludedPixels (stepGroup c (groupOf p))
  = Counters.read Counters.ExcludedPixels c + (if excludedPixel p then 1 else 0).
Proof.
  destruct p as [r g b a]. unfold stepGroup, groupOf, pixelStep. simpl Pixel.r.
  simpl Pixel.g. simpl Pixel.b. simpl Pixel.a.
  destruct (Js.lt (Some a) 255) eqn:E0.
  { simpl. unfold excludedPixel. simpl in *. rewrite E0. simpl. lia. }
  destruct (isBorder (Some r) (Some g) (Some b)) eqn:Eb.
  { rewrite orb_true_r. simpl Counters.read.
    apply isBorder_Z in Eb. unfold excludedPixel. simpl.
    destruct Eb as (H1 & H2 & H3).
    apply Z.ltb_lt in H1, H2, H3. rewrite H1, H2, H3, orb_true_r. lia. }
  destruct (isMagenta (Some r) (Some g) (Some b)) eqn:Em.
  { apply isMagenta_isBorder in Em. congruence. }
  cbn [orb].
  assert (Ex : excludedPixel (Pixel.mk r g b a) = false).
  { unfold excludedPixel. simpl. simpl in E0. rewrite E0. cbn [orb].
    destruct (_ && _) eqn:E; [| reflexivity].
    assert (isBorder (Some r) (Some g) (Some b) = true); [| congruence].
    apply isBorder_Z. apply andb_prop in E. destruct E as [E E3].
    apply andb_prop in E. destruct E as [E1 E2]. lia. }
  rewrite Ex.
  repeat match goal with
         | |- context [if ?t then _ else _] => destruct t
         end; simpl; lia.
Qed.

Lemma step_strict (p : Pixel.t) (c : Counters.t) :
  Counters.read Counters.CountDarkGreen (stepGroup c (groupOf p))
  = Counters.read Counters.CountDarkGreen c
    + (if opaqueRgb 0 146 69 p then 1 else 0)
  /\ Counters.read Counters.CountBlue (stepGroup c (groupOf p))
     = Counters.read Counters.CountBlue c
       + (if opaqueRgb 0 0 255 p then 1 else 0)
  /\ Counters.read Counters.CountNeonGreen (stepGroup c (groupOf p))
     = Counters.read Counters.CountNeonGreen c
       + (if opaqueRgb 0 255 0 p then 1 else 0)
  /\ Counters.read Counters.CountGrey (stepGroup c (groupOf p))
     = Counters.read Counters.CountGrey c
       + (if opaqueRgb 77 77 77 p then 1 else 0).
Proof.
  destruct p as [r g b a]. unfold stepGroup, groupOf, pixelStep.
  simpl Pixel.r. simpl Pixel.g. simpl Pixel.b. simpl Pixel.a.
  destruct (Js.lt (Some a) 255) eqn:E0;
    [| destruct (isMagenta (Some r) (Some g) (Some b)
                 || isBorder (Some r) (Some g) (Some b)) eqn:E1;
       [| destruct (isRgb (Some r) (Some g) (Some b) 0 146 69) eqn:E2;
          [| destruct (isRgb (Some r) (Some g) (Some b) 0 0 255) eqn:E3;
             [| destruct (isRgb (Some r) (Some g) (Some b) 0 255 0) eqn:E4;
                [| destruct (isRgb (Some r) (Some g) (Some b) 77 77 77) eqn:E5;
                   [| destruct (isWarm _) ]]]]]];
    cbn [Counters.read Counters.incr Counters.countDarkGreen Counters.countBlue
           Counters.countNeonGreen Counters.countGrey];
    repeat split; decide_class.
Qed.

(** X10. On a buffer of whole pixels [excludedPixels] is the number of
    pixels whose alpha is below 255 or that are border pixels
    (R > 150, B > 150, G < 60). *)
Theorem excluded_count (w h : Z) (ps : list Pixel.t) :
  AnalysisResult.excludedPixels (analyzeImagePixelData (image w h (bytesOf ps)))
  = countOf excludedPixel ps.
Proof.
  rewrite analyze_assemble. simpl AnalysisResult.excludedPixels.
  rewrite final_whole_pixels.
  exact (fold_read Counters.ExcludedPixels excludedPixel step_excluded
           ps Counters.zero).
Qed.

(** X11. On a buffer of whole pixels the counts of the four strict
    categories are the numbers of fully opaque pixels of exactly the colours
    (0,146,69), (0,0,255), (0,255,0) and (77,77,77); Warm and Other share the
    pixels that are left. *)
Theorem strict_counts (w h : Z) (ps : list Pixel.t) :
  exists warm other,
    counts (analyzeImagePixelData (image w h (bytesOf ps)))
    = [ warm; countOf (opaqueRgb 0 146 69) ps; countOf (opaqueRgb 0 0 255) ps;
        countOf (opaqueRgb 0 255 0) ps; countOf (opaqueRgb 77 77 77) ps; other ]
    /\ warm + other
       = Z.of_nat (length ps) - countOf excludedPixel ps
         - countOf (opaqueRgb 0 146 69) ps - countOf (opaqueRgb 0 0 255) ps
         - countOf (opaqueRgb 0 255 0) ps - countOf (opaqueRgb 77 77 77) ps.
Proof.
  pose proof (fold_read Counters.ExcludedPixels excludedPixel step_excluded
                ps Counters.zero) as H0.
  pose proof (fold_read Counters.CountDarkGreen (opaqueRgb 0 146 69)
                (fun p c => proj1 (step_strict p c)) ps Counters.zero) as H1.
  pose proof (fold_read Counters.CountBlue (opaqueRgb 0 0 255)
                (fun p c => proj1 (proj2 (step_strict p c))) ps Counters.zero)
    as H2.
  pose proof (fold_read Counters.CountNeonGreen (opaqueRgb 0 255 0)
                (fun p c => proj1 (proj2 (proj2 (step_strict p c))))
                ps Counters.zero) as H3.
  pose proof (fold_read Counters.CountGrey (opaqueRgb 77 77 77)
                (fun p c => proj2 (proj2 (proj2 (step_strict p c))))
                ps Counters.zero) as H4.
  pose proof (visited_final (image w h (bytesOf ps))) as Hv.
  rewrite final_whole_pixels in Hv.
  assert (Hlen : iterations (length (ImageData.data (image w h (bytesOf ps)))) 0
                 = Z.of_nat (length ps)).
  { apply iterations_multiple. simpl ImageData.data. unfold bytesOf.
    clear. induction ps as [| p ps IH]; simpl length in *; lia. }
  rewrite Hlen in Hv. clear Hlen.
  rewrite analyze_assemble, counts_assemble, final_whole_pixels.
  simpl Counters.read in H0, H1, H2, H3, H4.
  rewrite H1, H2, H3, H4.
  eexists _, _. split; [reflexivity |].
  unfold Counters.visited, Counters.categorised in Hv. lia.
Qed.

(** ** [hexToRgb] *)

Example hexToRgb_examples :
  hexToRgb "#009245" = Some (Rgb.mk 0 146 69)
  /\ hexToRgb "4D4d4d" = Some (Rgb.mk 77 77 77)
  /\ hexToRgb "#fff" = None /\ hexToRgb "" = None
  /\ hexToRgb "##00ff00" = None /\ hexToRgb "#00ff0g" = None
  /\ hexToRgb "#00ff000" = None.
Proof. repeat split. Qed.

Lemma hexDigit_range (c : ascii) (d : Z) : hexDigit c = Some d -> 0 <= d <= 15.
Proof.
  unfold hexDigit. cbv zeta.
  generalize (Z.of_N (N_of_ascii c)). intros n.
  destruct (Z.leb_spec 48 n); destruct (Z.leb_spec n 57);
    destruct (Z.leb_spec 97 n); destruct (Z.leb_spec n 102);
    destruct (Z.leb_spec 65 n); destruct (Z.leb_spec n 70);
    simpl; intros E; try discriminate; injection E as <-; lia.
Qed.

Lemma parseHexPair_range (c1 c2 : ascii) (v : Z) :
  parseHexPair c1 c2 = Some v -> 0 <= v <= 255.
Proof.
  unfold parseHexPair.
  destruct (hexDigit c1) as [d1 |] eqn:E1; [| discriminate].
  destruct (hexDigit c2) as [d2 |] eqn:E2; [| discriminate].
  intros E. assert (Hv : v = 16 * d1 + d2) by congruence.
  apply hexDigit_range in E1. apply hexDigit_range in E2. lia.
Qed.

Lemma hexToRgb_inv (s : string) (c : Rgb.t) :
  hexToRgb s = Some c ->
  exists c1 c2 c3 c4 c5 c6,
    stripHash s
    = String c1 (String c2 (String c3 (String c4 (String c5
        (String c6 EmptyString)))))
    /\ parseHexPair c1 c2 = Some (Rgb.r c)
    /\ parseHexPair c3 c4 = Some (Rgb.g c)
    /\ parseHexPair c5 c6 = Some (Rgb.b c).
Proof.
  unfold hexToRgb.
  destruct (stripHash s) as [| c1 [| c2 [| c3 [| c4 [| c5 [| c6 [| c7 t]]]]]]];
    try discriminate.
  destruct (parseHexPair c1 c2) as [r |] eqn:Er; [| discriminate].
  destruct (parseHexPair c3 c4) as [g |] eqn:Eg; [| discriminate].
  destruct (parseHexPair c5 c6) as [b |] eqn:Eb; [| discriminate].
  intros [= <-]. exists c1, c2, c3, c4, c5, c6. repeat split; assumption.
Qed.

Lemma stripHash_length (s : string) :
  (String.length s = String.length (stripHash s)
   /\ forall rest, s <> String "#" rest)
  \/ (String.length s = S (String.length (stripHash s))
      /\ s = String "#" (stripHash s)).
Proof.
  destruct s as [| c s]; simpl.
  - left. split; [reflexivity | discriminate].
  - destruct (Ascii.eqb_spec c "#") as [-> | Hc].
    + right. split; reflexivity.
    + left. split; [reflexivity |].
      intros rest E. injection E as E _. contradiction.
Qed.

(** X12. [hexToRgb] returns a colour only for a string of exactly six
    characters, or of seven of which the first is [#]; anything else (the
    empty string, the three-digit short form, a second [#], a character that
    is no hexadecimal digit) gives [null].  The three channels it returns
    are between 0 and 255. *)
Theorem hexToRgb_shape (s : string) (c : Rgb.t) :
  hexToRgb s = Some c ->
  (String.length s = 6%nat
   \/ (String.length s = 7%nat /\ exists rest, s = String "#" rest))
  /\ 0 <= Rgb.r c <= 255 /\ 0 <= Rgb.g c <= 255 /\ 0 <= Rgb.b c <= 255.
Proof.
  intros H.
  destruct (hexToRgb_inv s c H)
    as (c1 & c2 & c3 & c4 & c5 & c6 & Hs & Hr & Hg & Hb).
  split.
  - destruct (stripHash_length s) as [[Hl _] | [Hl Hx]];
      rewrite Hs in *; simpl in Hl.
    + now left.
    + right. split; [assumption |]. eexists. exact Hx.
  - repeat split; eapply parseHexPair_range; eassumption.
Qed.

Lemma hexToRgb_shape_witness :
  (String.length "#4d4d4d" = 6%nat
   \/ (String.length "#4d4d4d" = 7%nat
       /\ exists rest, "#4d4d4d"%string = String "#" rest))
  /\ 0 <= 77 <= 255 /\ 0 <= 77 <= 255 /\ 0 <= 77 <= 255.
Proof.
  apply (hexToRgb_shape "#4d4d4d" (Rgb.mk 77 77 77)). reflexivity.
Defined.

(** X13. The leading [#] is optional: a string that does not start with
    [#] is read the same with a [#] put in front of it. *)
Theorem hexToRgb_hash_optional (s : string) :
  (forall rest, s <> String "#" rest) ->
  hexToRgb (String "#" s) = hexToRgb s.
Proof.
  intros H. unfold hexToRgb.
  assert (E : stripHash s = s).
  { destruct s as [| c s]; [reflexivity |]. simpl.
    destruct (Ascii.eqb_spec c "#") as [-> | _]; [| reflexivity].
    exfalso. now apply (H s). }
  rewrite E. reflexivity.
Qed.

Lemma hexToRgb_hash_optional_witness :
  hexToRgb "#0000ff" = hexToRgb "0000ff".
Proof.
  apply (hexToRgb_hash_optional "0000ff"). intros rest. discriminate.
Defined.

Lemma hexDigit_upper (c : ascii) : hexDigit (upper c) = hexDigit c.
Proof. destruct c as [[] [] [] [] [] [] [] []]; vm_compute; reflexivity. Qed.

Lemma hexDigit_lower (c : ascii) : hexDigit (lower c) = hexDigit c.
Proof. destruct c as [[] [] [] [] [] [] [] []]; vm_compute; reflexivity. Qed.

Lemma lower_hash (c : ascii) : lower c = "#"%char <-> c = "#"%char.
Proof.
  destruct c as [[] [] [] [] [] [] [] []]; vm_compute; split; congruence.
Qed.

Lemma upper_hash (c : ascii) : upper c = "#"%char <-> c = "#"%char.
Proof.
  destruct c as [[] [] [] [] [] [] [] []]; vm_compute; split; congruence.
Qed.

Lemma parseHexPair_map (f : ascii -> ascii) (c1 c2 : ascii) :
  (forall c, hexDigit (f c) = hexDigit c) ->
  parseHexPair (f c1) (f c2) = parseHexPair c1 c2.
Proof. intros H. unfold parseHexPair. now rewrite !H. Qed.

Lemma stripHash_map (f : ascii -> ascii) (s : string) :
  (forall c, f c = "#"%char <-> c = "#"%char) ->
  stripHash (mapString f s) = mapString f (stripHash s).
Proof.
  intros H. destruct s as [| c s]; [reflexivity |].
  simpl. destruct (Ascii.eqb_spec c "#") as [-> | Hc].
  - assert (E : f "#"%char = "#"%char) by now apply (proj2 (H "#"%char)).
    rewrite E. reflexivity.
  - destruct (Ascii.eqb_spec (f c) "#") as [E | _]; [| reflexivity].
    apply (proj1 (H c)) in E. contradiction.
Qed.

Lemma hexToRgb_map (f : ascii -> ascii) (s : string) :
  (forall c, hexDigit (f c) = hexDigit c) ->
  (forall c, f c = "#"%char <-> c = "#"%char) ->
  hexToRgb (mapString f s) = hexToRgb s.
Proof.
  intros Hd Hh. unfold hexToRgb. rewrite stripHash_map by assumption.
  destruct (stripHash s) as [| c1 [| c2 [| c3 [| c4 [| c5 [| c6 [| c7 t]]]]]]];
    cbn [mapString]; try reflexivity.
  now rewrite !(parseHexPair_map f) by assumption.
Qed.

(** X14. [hexToRgb] does not tell the ASCII letters A-Z from a-z: a string
    of 8-bit characters, the string with its letters a-z put in upper case,
    and the string with its letters A-Z put in lower case, all other
    characters kept, are read alike, colour or [null]; so are any two
    strings that differ in the case of ASCII letters only. *)
Theorem hexToRgb_case_insensitive (s : string) :
  hexToRgb (mapString upper s) = hexToRgb s
  /\ hexToRgb (mapString lower s) = hexToRgb s
  /\ (forall t, mapString lower t = mapString lower s ->
                hexToRgb t = hexToRgb s).
Proof.
  assert (L : forall u, hexToRgb (mapString lower u) = hexToRgb u).
  { intros u. apply hexToRgb_map; auto using hexDigit_lower, lower_hash. }
  split; [| split].
  - apply hexToRgb_map; auto using hexDigit_upper, upper_hash.
  - apply L.
  - intros t E. rewrite <- (L t), E. apply L.
Qed.

Lemma hexChar_hexDigit (c : ascii) (d : Z) :
  hexDigit c = Some d -> hexChar d = lower c.
Proof.
  destruct c as [[] [] [] [] [] [] [] []]; intros E; vm_compute in E;
    first [discriminate | injection E as E; subst d; vm_compute; reflexivity].
Qed.

Lemma nibble_cases (d : Z) :
  0 <= d <= 15 ->
  d = 0 \/ d = 1 \/ d = 2 \/ d = 3 \/ d = 4 \/ d = 5 \/ d = 6 \/ d = 7
  \/ d = 8 \/ d = 9 \/ d = 10 \/ d = 11 \/ d = 12 \/ d = 13 \/ d = 14
  \/ d = 15.
Proof. lia. Qed.

Lemma hexDigit_hexChar (d : Z) : 0 <= d <= 15 -> hexDigit (hexChar d) = Some d.
Proof.
  intros H. pose proof (nibble_cases d H) as E.
  repeat (destruct E as [-> | E]; [reflexivity |]). subst. reflexivity.
Qed.

Lemma hexChar_not_hash (d : Z) :
  0 <= d <= 15 -> Ascii.eqb (hexChar d) "#" = false.
Proof.
  intros H. pose proof (nibble_cases d H) as E.
  repeat (destruct E as [-> | E]; [reflexivity |]). subst. reflexivity.
Qed.

Lemma byte_nibbles (v : Z) :
  0 <= v <= 255 ->
  0 <= v / 16 <= 15 /\ 0 <= v mod 16 <= 15 /\ 16 * (v / 16) + v mod 16 = v.
Proof.
  intros H. pose proof (Z.mod_pos_bound v 16). pose proof (Z.div_mod v 16).
  assert (0 <= v / 16) by (apply Z.div_pos; lia).
  assert (v / 16 < 16) by (apply Z.div_lt_upper_bound; lia).
  lia.
Qed.

Lemma parseHexPair_hexPair (v : Z) :
  0 <= v <= 255 ->
  parseHexPair (hexChar (v / 16)) (hexChar (v mod 16)) = Some v.
Proof.
  intros H. unfold parseHexPair.
  destruct (byte_nibbles v H) as (Hd & Hm & Hv).
  rewrite !hexDigit_hexChar by assumption.
  now rewrite Hv.
Qed.

Lemma hexPair_parse (c1 c2 : ascii) (v : Z) (rest : string) :
  parseHexPair c1 c2 = Some v ->
  hexPair v rest = String (lower c1) (String (lower c2) rest).
Proof.
  unfold parseHexPair.
  destruct (hexDigit c1) as [d1 |] eqn:E1; [| discriminate].
  destruct (hexDigit c2) as [d2 |] eqn:E2; [| discriminate].
  intros E. assert (Hv' : v = 16 * d1 + d2) by congruence.
  assert (Hv : v = d2 + d1 * 16) by lia. clear Hv' E.
  pose proof (hexDigit_range _ _ E1). pose proof (hexDigit_range _ _ E2).
  unfold hexPair. subst v.
  rewrite Z.div_add by lia. rewrite Z.mod_add by lia.
  rewrite Z.div_small, Z.mod_small by lia. simpl (0 + d1).
  now rewrite (hexChar_hexDigit _ _ E1), (hexChar_hexDigit _ _ E2).
Qed.

(** X15. Round trips.  Every colour with channels in [0,255] is read back
    from its six lower-case hexadecimal digits, with or without the [#]; and
    a string that [hexToRgb] reads as a colour is, once the [#] is dropped
    and the letters are put in lower case, the six digits of that colour:
    two strings are read as the same colour only if they differ by case and
    the [#]. *)
Theorem hexToRgb_round_trip :
  (forall c : Rgb.t,
      0 <= Rgb.r c <= 255 -> 0 <= Rgb.g c <= 255 -> 0 <= Rgb.b c <= 255 ->
      hexToRgb (toHexBody c) = Some c
      /\ hexToRgb (String "#" (toHexBody c)) = Some c)
  /\ (forall (s : string) (c : Rgb.t),
         hexToRgb s = Some c -> mapString lower (stripHash s) = toHexBody c).
Proof.
  split.
  - intros [r g b] Hr Hg Hb. simpl in Hr, Hg, Hb.
    assert (E : hexToRgb (String "#" (toHexBody (Rgb.mk r g b)))
                = Some (Rgb.mk r g b)).
    { unfold hexToRgb, toHexBody, hexPair. simpl.
      now rewrite !parseHexPair_hexPair by assumption. }
    split; [| exact E].
    unfold hexToRgb, toHexBody, hexPair, stripHash. simpl Rgb.r.
    rewrite hexChar_not_hash.
    + simpl. now rewrite !parseHexPair_hexPair by assumption.
    + now apply byte_nibbles.
  - intros s c H.
    destruct (hexToRgb_inv s c H)
      as (c1 & c2 & c3 & c4 & c5 & c6 & Hs & Hr & Hg & Hb).
    rewrite Hs. unfold toHexBody.
    rewrite (hexPair_parse _ _ _ _ Hb), (hexPair_parse _ _ _ _ Hg),
      (hexPair_parse _ _ _ _ Hr).
    reflexivity.
Qed.

(** ** Display colours and chart rows *)

(** X16. The display colour of each strict category is the colour its rule
    matches: a fully opaque pixel of the category's [color] is counted in
    that category, for Dark Green, Blue, Neon Green and Grey; the colour of
    Other, #9CA3AF, is counted as Other.  The representative colour of Warm,
    #ed1c24 = (237,28,36), is not Warm for the engine: its hue is 357.7
    degrees and it is counted as Other. *)
Theorem display_colours (img : ImageData.t) :
  map (fun cat => countedAs (ColorCategory.color cat))
      (AnalysisResult.categories (analyzeImagePixelData img))
  = map (fun x => Some (Counters.incr x Counters.zero))
      [ Counters.CountOther; Counters.CountDarkGreen; Counters.CountBlue;
        Counters.CountNeonGreen; Counters.CountGrey; Counters.CountOther ]
  /\ (let x := rgbToHsv 237 28 36 in
      (357 <=? Hsv.h x)%float = true /\ (Hsv.h x <? 358)%float = true).
Proof. split; [reflexivity | split; reflexivity]. Qed.

Lemma chartData_rows (data : AnalysisResult.t) :
  Forall2 (fun cat row =>
             ChartDatum.name row = ColorCategory.name cat
             /\ ChartDatum.value row = ColorCategory.percentage cat
             /\ ChartDatum.pixelCount row = ColorCategory.count cat
             /\ ChartDatum.color row = ColorCategory.color cat)
    (AnalysisResult.categories data) (chartData data).
Proof.
  unfold chartData.
  induction (AnalysisResult.categories data) as [| cat cats IH]; simpl;
    constructor; [repeat split | exact IH].
Qed.

(** X17. Whatever the result, the chart has one row for each of its
    categories, in the same order, and the row of a category carries that
    category's name, its percentage as [value], its count as [pixelCount]
    and its colour.  For the result of an analysis these are the six rows
    Warm, Dark Green, Blue, Neon Green, Grey, Other, the [pixelCount] of each
    being the count of that category; and if the input is well formed, no
    [pixelCount] is negative and they add up to [processedPixels]. *)
Theorem chart_rows :
  (forall data : AnalysisResult.t,
      Forall2 (fun cat row =>
                 ChartDatum.name row = ColorCategory.name cat
                 /\ ChartDatum.value row = ColorCategory.percentage cat
                 /\ ChartDatum.pixelCount row = ColorCategory.count cat
                 /\ ChartDatum.color row = ColorCategory.color cat)
        (AnalysisResult.categories data) (chartData data))
  /\ (forall img : ImageData.t,
         let c := finalCounters img in
         let rows := chartData (analyzeImagePixelData img) in
         map ChartDatum.name rows
         = [ "Warm (Red/Orange/Yellow)"; "Dark Green (#009245)";
             "Blue (#0000ff)"; "Neon Green (#00ff00)"; "Grey (#4d4d4d)";
             "Other / Unclassified" ]%string
         /\ map ChartDatum.pixelCount rows
            = [ Counters.countWarm c; Counters.countDarkGreen c;
                Counters.countBlue c; Counters.countNeonGreen c;
                Counters.countGrey c; Counters.countOther c ]
         /\ map ChartDatum.value rows = percentages (analyzeImagePixelData img))
  /\ (forall img : ImageData.t,
         ImageData.wellFormed img ->
         let rows := chartData (analyzeImagePixelData img) in
         fold_right Z.add 0 (map ChartDatum.pixelCount rows)
         = AnalysisResult.processedPixels (analyzeImagePixelData img)
         /\ Forall (fun row => 0 <= ChartDatum.pixelCount row) rows).
Proof.
  split; [exact chartData_rows | split].
  - intros img c rows. unfold rows, c. rewrite analyze_assemble.
    repeat split.
  - intros img Hwf rows.
    pose proof (processed_wellFormed img Hwf) as Hproc.
    pose proof (nonneg_final img) as Hnn.
    pose proof (Hnn Counters.CountWarm).
    pose proof (Hnn Counters.CountDarkGreen).
    pose proof (Hnn Counters.CountBlue).
    pose proof (Hnn Counters.CountNeonGreen).
    pose proof (Hnn Counters.CountGrey). pose proof (Hnn Counters.CountOther).
    unfold rows. rewrite Hproc. rewrite analyze_assemble.
    unfold Counters.categorised. simpl in *.
    split; [lia |]. repeat constructor; simpl; assumption.
Qed.

Lemma chart_rows_witness :
  fold_right Z.add 0
    (map ChartDatum.pixelCount (chartData (analyzeImagePixelData oneInThree)))
  = AnalysisResult.processedPixels (analyzeImagePixelData oneInThree).
Proof.
  destruct (proj2 (proj2 chart_rows) oneInThree) as [H _];
    [reflexivity | exact H].
Defined.
